(** * django-usernamefield: the [UsernameField] denormalisation field

    A shallow embedding of [django_usernamefield/__init__.py]: the field's
    configuration, the class-level registry [instances], and the four
    methods [pre_save], [contribute_to_class], [rename_username] and [lint],
    written in a small state-and-exception monad over an explicit world
    (in-memory model instances, database tables, registry, standard output).

    The host framework is the consumed collaborator: attribute access on a
    model instance (with foreign keys resolved through the user table),
    [filter(...).update(...)], [exclude(...)], [exists()] and evaluation of
    a query set are modelled by the primitives of section "Framework". *)

From Stdlib Require Import ZArith String List Lia.
From stdpp Require Import gmap strings list fin_maps.

Local Open Scope string_scope.
Local Open Scope list_scope.
Local Open Scope Z_scope.

(** ** Data model *)

(** The value stored under an attribute or column: SQL NULL / [None], a
    character string, or a foreign key holding the primary key of a user. *)
Inductive cell :=
| CNull
| CStr (s : string)
| CRef (id : Z).

#[global] Instance cell_eq_dec : EqDecision cell.
Proof. solve_decision. Defined.

(** A row (and the attribute dictionary of an in-memory instance) maps
    attribute names to cells; a table maps primary keys to rows. *)
Abbreviation row := (gmap string cell).
Abbreviation table := (gmap Z row).

(** A model class: its name and [_meta.abstract]. *)
Record model_class := { model_name : string; abstract : bool }.

#[global] Instance model_class_eq_dec : EqDecision model_class.
Proof. solve_decision. Defined.

(** [django.contrib.auth.models.User]. *)
Definition User : model_class := {| model_name := "User"; abstract := false |}.

(** A registry entry [(cls, populate_from, name, max_length)]. *)
Definition entry : Type := model_class * string * string * Z.

(** Python values the code handles: [None], a string, a related instance
    (its primary key and fields). *)
Inductive pyval :=
| VNone
| VStr (s : string)
| VObj (pk : Z) (fields : row).

#[global] Instance pyval_eq_dec : EqDecision pyval.
Proof. solve_decision. Defined.

(** The exceptions that can arise: a foreign key without a row, a missing
    attribute, and an operation on a value of the wrong type (slicing
    [None] or an instance). *)
Inductive exn :=
| ObjectDoesNotExist
| AttributeError
| TypeError.

#[global] Instance exn_eq_dec : EqDecision exn.
Proof. solve_decision. Defined.

Inductive result (A : Type) :=
| Ok (a : A)
| Raise (e : exn).
Arguments Ok {A} a.
Arguments Raise {A} e.

(** References to in-memory model instances. *)
Definition loc := nat.

(** Keyword filters of a query: [field=v] on a foreign key, or [pk=v]. *)
Inductive lookup :=
| ByField (field : string) (v : Z)
| ByPk (v : Z).

(** The lazy query set built in [lint]: the primary keys of the rows of
    [model] left by excluding [source__username = F(target)]. *)
Record queryset := {
  qs_model : model_class;
  qs_source : string;
  qs_target : string
}.

(** What the code does to its surroundings, in order: attribute reads and
    writes on instances, and the statements sent to the database. *)
Inductive event :=
| Getattr (obj : loc) (attr : string)
| Setattr (obj : loc) (attr : string) (v : pyval)
| Update (m : model_class) (flt : lookup) (col : string) (v : string)
| Exists (qs : queryset)
| Select (qs : queryset).

(** The two [print] statements of [lint], by their format arguments. The
    key list of a warning is the query set handed to the format string; how
    the framework renders it (a long list is cut short) is not modelled. *)
Inductive message :=
| Info (m : model_class) (target : string)
| Warning (count : nat) (m : model_class) (target : string) (pks : list Z).

Record world := {
  heap : gmap loc row;
  tables : gmap string table;
  instances : list entry;
  trace : list event;
  stdout : list message
}.

(** The field: [populate_from], [max_length], and the [name] the framework
    binds when the field is attached to a model class. *)
Record UsernameField := {
  populate_from : string;
  max_length : Z;
  name : string
}.

(** ** State and exception monad *)

Definition Py (A : Type) : Type := world -> result A * world.

Definition ret {A} (a : A) : Py A := fun w => (Ok a, w).

Definition bind {A B} (m : Py A) (k : A -> Py B) : Py B := fun w =>
  match m w with
  | (Ok a, w') => k a w'
  | (Raise e, w') => (Raise e, w')
  end.

Definition raise {A} (e : exn) : Py A := fun w => (Raise e, w).

(** [try: body except caught: handler]. *)
Definition try_except (body : Py unit) (caught : exn) (handler : Py unit) : Py unit :=
  fun w =>
    match body w with
    | (Ok a, w') => (Ok a, w')
    | (Raise e, w') => if decide (e = caught) then handler w' else (Raise e, w')
    end.

#[global] Instance Py_ret : MRet Py := @ret.
#[global] Instance Py_bind : MBind Py := fun A B k m => bind m k.

(** [for x in l: body x]. *)
Fixpoint for_each {A} (l : list A) (body : A -> Py unit) : Py unit :=
  match l with
  | [] => ret tt
  | x :: l' => body x;; for_each l' body
  end.

Definition exec {A} (m : Py A) (w : world) : world := snd (m w).

(** ** Framework *)

Definition log (e : event) (w : world) : world :=
  {| heap := heap w; tables := tables w; instances := instances w;
     trace := trace w ++ [e]; stdout := stdout w |}.

Definition table_of (w : world) (m : model_class) : table :=
  default ∅ (tables w !! model_name m).

(** The Python value of a stored cell; a foreign key is followed to the user
    table, and a key with no row there raises [ObjectDoesNotExist]. *)
Definition resolve (c : cell) : Py pyval := fun w =>
  match c with
  | CNull => (Ok VNone, w)
  | CStr s => (Ok (VStr s), w)
  | CRef id =>
      match table_of w User !! id with
      | Some u => (Ok (VObj id u), w)
      | None => (Raise ObjectDoesNotExist, w)
      end
  end.

(** [getattr(obj, attr)] on a model instance. Every reference the code
    holds points at an instance; the first [None] branch only makes the
    function total. An instance holds a relation by its key, and the related
    record is fetched when the attribute is read: an instance that carries
    an already loaded related object is not represented. *)
Definition getattr (obj : loc) (attr : string) : Py pyval := fun w =>
  let w' := log (Getattr obj attr) w in
  match heap w !! obj with
  | None => (Raise AttributeError, w')
  | Some d =>
      match d !! attr with
      | None => (Raise AttributeError, w')
      | Some c => resolve c w'
      end
  end.

Definition to_cell (v : pyval) : cell :=
  match v with
  | VNone => CNull
  | VStr s => CStr s
  | VObj pk _ => CRef pk
  end.

(** [setattr(obj, attr, v)]. *)
Definition setattr (obj : loc) (attr : string) (v : pyval) : Py unit := fun w =>
  let w' := log (Setattr obj attr v) w in
  match heap w !! obj with
  | None => (Raise AttributeError, w')
  | Some d =>
      (Ok tt,
       {| heap := <[obj := <[attr := to_cell v]> d]> (heap w');
          tables := tables w'; instances := instances w';
          trace := trace w'; stdout := stdout w' |})
  end.

(** [v.attr] on a value: only a related instance has fields. *)
Definition getfield (v : pyval) (attr : string) : Py pyval :=
  match v with
  | VObj _ u =>
      match u !! attr with
      | None => raise AttributeError
      | Some c => resolve c
      end
  | _ => raise AttributeError
  end.

(** [s[:stop]] on a string, with Python's index adjustment: a negative
    [stop] counts from the end, and the result is clipped to the string. *)
Definition py_slice_to (s : string) (stop : Z) : string :=
  let len := Z.of_nat (String.length s) in
  let stop' := if stop <? 0 then Z.max 0 (stop + len) else Z.min stop len in
  substring 0 (Z.to_nat stop') s.

(** [v[:stop]] on a value. *)
Definition slice_to (v : pyval) (stop : Z) : Py pyval :=
  match v with
  | VStr s => ret (VStr (py_slice_to s stop))
  | _ => raise TypeError
  end.

Definition row_matches (flt : lookup) (pk : Z) (r : row) : bool :=
  match flt with
  | ByField f v => bool_decide (r !! f = Some (CRef v))
  | ByPk v => bool_decide (pk = v)
  end.

Definition update_rows (flt : lookup) (col : string) (v : string) (t : table) : table :=
  map_imap (fun pk r => Some (if row_matches flt pk r then <[col := CStr v]> r else r)) t.

(** The effect of one update statement on the database: the rows of the
    model's table that pass the filter get the new value. *)
Definition apply_update (m : model_class) (flt : lookup) (col : string) (v : string)
    (db : gmap string table) : gmap string table :=
  alter (update_rows flt col v) (model_name m) db.

(** [m.objects.filter(flt).update(col=v)]; the row count it returns is
    discarded by every caller. *)
Definition q_update (m : model_class) (flt : lookup) (col : string) (v : string) : Py unit :=
  fun w =>
    (Ok tt,
     {| heap := heap w;
        tables := apply_update m flt col v (tables w);
        instances := instances w;
        trace := trace w ++ [Update m flt col v];
        stdout := stdout w |}).

(** The condition [source__username = F(target)] holding on one row: the
    row's [source] key leads to a user whose username is the row's
    [target]. *)
Definition username_matches (users : table) (source target : string) (r : row) : bool :=
  match r !! source with
  | Some (CRef id) =>
      match users !! id with
      | Some u =>
          match u !! "username", r !! target with
          | Some (CStr a), Some (CStr b) => bool_decide (a = b)
          | _, _ => false
          end
      | None => false
      end
  | _ => false
  end.

(** SQL's comparison of two column values: unknown when either is NULL. *)
Definition sql_eq (a b : cell) : option bool :=
  match a, b with
  | CNull, _ | _, CNull => None
  | _, _ => Some (bool_decide (a = b))
  end.

(** Conjunction and negation of SQL's three truth values ([None] is
    unknown). *)
Definition sql_and (p q : option bool) : option bool :=
  match p, q with
  | Some false, _ | _, Some false => Some false
  | Some true, Some true => Some true
  | _, _ => None
  end.

Definition sql_not (p : option bool) : option bool := negb <$> p.

(** The username the join over [source] puts beside a row. The relation may
    be null, so the join is an outer one: the value is NULL when the key is
    null or leads to no user. *)
Definition joined_username (users : table) (source : string) (r : row) : cell :=
  match r !! source with
  | Some (CRef id) =>
      match users !! id with
      | Some u => default CNull (u !! "username")
      | None => CNull
      end
  | _ => CNull
  end.

(** The filter of [exclude(source__username=F(target))] as the query
    compiler writes it,
    [NOT (username = target AND username IS NOT NULL)]: a row is kept when
    this is true, so not when it is unknown. *)
Definition username_differs (users : table) (source target : string) (r : row) : bool :=
  let uname := joined_username users source r in
  bool_decide
    (sql_not (sql_and (sql_eq uname (default CNull (r !! target)))
                      (Some (bool_decide (uname <> CNull))))
     = Some true).

(** The primary keys a query set denotes. *)
Definition qs_pks (w : world) (qs : queryset) : list Z :=
  (filter (fun kv => username_differs (table_of w User) (qs_source qs) (qs_target qs) kv.2 = true)
          (map_to_list (table_of w (qs_model qs)))).*1.

(** [qs.exists()]. *)
Definition qs_exists (qs : queryset) : Py bool := fun w =>
  (Ok (bool_decide (qs_pks w qs <> [])), log (Exists qs) w).

(** Evaluation of the query set ([len(qs)] fills its result cache, which
    the later [%r] reads). *)
Definition qs_fetch (qs : queryset) : Py (list Z) := fun w =>
  (Ok (qs_pks w qs), log (Select qs) w).

(** [print]. *)
Definition print (msg : message) : Py unit := fun w =>
  (Ok tt,
   {| heap := heap w; tables := tables w; instances := instances w;
      trace := trace w; stdout := stdout w ++ [msg] |}).

(** Reading and appending to the class attribute [instances]. *)
Definition get_instances : Py (list entry) := fun w => (Ok (instances w), w).

Definition instances_append (e : entry) : Py unit := fun w =>
  (Ok tt,
   {| heap := heap w; tables := tables w; instances := instances w ++ [e];
      trace := trace w; stdout := stdout w |}).

(** ** UsernameField *)

(** [__init__]: the keyword [populate_from] defaults to the relation user,
    [max_length] to 30; the base constructor takes the optional [name],
    which [contribute_to_class] sets when the field is attached. *)
Definition UsernameField_init (kw_populate_from : option string)
    (kw_max_length : option Z) (kw_name : option string) : UsernameField :=
  {| populate_from := default "user" kw_populate_from;
     max_length := default 30 kw_max_length;
     name := default "" kw_name |}.

Definition pre_save (self : UsernameField) (obj : loc) (add : bool) : Py pyval :=
  cur ← getattr obj (name self);
  (if decide (cur = VStr "") then
     try_except
       (user ← getattr obj (populate_from self);
        match user with
        | VNone => setattr obj (name self) (VStr "")
        | _ =>
            u ← getfield user "username";
            s ← slice_to u (max_length self);
            setattr obj (name self) s
        end)
       ObjectDoesNotExist
       (ret tt)
   else ret tt);;
  getattr obj (name self).

(** Returns the field as the base class leaves it, bound to [name]. *)
Definition contribute_to_class (self : UsernameField) (cls : model_class)
    (name : string) : Py UsernameField :=
  (if negb (abstract cls) then
     instances_append (cls, populate_from self, name, max_length self)
   else ret tt);;
  ret {| populate_from := populate_from self; max_length := max_length self;
         name := name |}.

Definition rename_entry (user_id : Z) (username : string) (e : entry) : Py unit :=
  let '(model, source, target, max_length) := e in
  q_update model (ByField source user_id) target (py_slice_to username max_length).

Definition rename_username (user_id : Z) (username : string) : Py unit :=
  l ← get_instances;
  for_each l (rename_entry user_id username);;
  q_update User (ByPk user_id) "username" username.

Definition lint_entry (e : entry) : Py unit :=
  let '(model, source, target, max_length) := e in
  if max_length <? 30 then
    print (Info model target)
  else
    let qs := {| qs_model := model; qs_source := source; qs_target := target |} in
    found ← qs_exists qs;
    if negb found then ret tt
    else
      pks ← qs_fetch qs;
      print (Warning (length pks) model target pks).

Definition lint : Py unit :=
  l ← get_instances;
  for_each l lint_entry.

(** ** Auxiliary definitions for the statements

    The component's operations as a single type, and the world each leaves
    behind. *)
Inductive operation :=
| Op_init (kw_populate_from : option string) (kw_max_length : option Z)
    (kw_name : option string)
| Op_pre_save (self : UsernameField) (obj : loc) (add : bool)
| Op_contribute_to_class (self : UsernameField) (cls : model_class) (name : string)
| Op_rename_username (user_id : Z) (username : string)
| Op_lint.

Definition run_operation (op : operation) (w : world) : world :=
  match op with
  | Op_init _ _ _ => w
  | Op_pre_save self obj add => exec (pre_save self obj add) w
  | Op_contribute_to_class self cls name => exec (contribute_to_class self cls name) w
  | Op_rename_username user_id username => exec (rename_username user_id username) w
  | Op_lint => exec lint w
  end.

(** The statement [rename_username] sends for one registry entry. *)
Definition update_of (user_id : Z) (username : string) (e : entry) : event :=
  let '(model, source, target, max_length) := e in
  Update model (ByField source user_id) target (py_slice_to username max_length).

(** A row is mismatched when it is not the case that its [source] key leads
    to a user whose current username is the string stored under [target]. *)
Definition mismatched (users : table) (source target : string) (r : row) : Prop :=
  ~ exists (id : Z) (u : row) (s : string),
      r !! source = Some (CRef id) /\ users !! id = Some u /\
      u !! "username" = Some (CStr s) /\ r !! target = Some (CStr s).

(** The rows the query of [lint] selects, in words: the row has no related
    username, or its target is not NULL and differs from the related
    username. *)
Definition reported (users : table) (source target : string) (r : row) : Prop :=
  joined_username users source r = CNull \/
  exists c : cell,
    r !! target = Some c /\ c <> CNull /\ c <> joined_username users source r.

(** The effect of a logged event on the database: only [Update] writes. *)
Definition apply_event (ev : event) (db : gmap string table) : gmap string table :=
  match ev with
  | Update m flt col v => apply_update m flt col v db
  | _ => db
  end.

(** A computation that leaves the registry as it found it, whatever its
    outcome. *)
Definition keeps_instances {A} (m : Py A) : Prop :=
  forall w, instances (snd (m w)) = instances w.

(** A concrete world used to exercise the statements: two users, a [Post]
    model with rows pointing at a user, at nobody and at a deleted user, and
    one in-memory instance of each kind. *)
Module Sample.
Definition Post : model_class := {| model_name := "Post"; abstract := false |}.

Definition users : table :=
  <[7 := <["username" := CStr "alice_in_wonderland"]> ∅]>
  (<[8 := <["username" := CStr "bob"]> ∅]> ∅).

Definition fresh : row := <["user" := CRef 7]> (<["uname" := CStr ""]> ∅).
Definition anonymous : row := <["user" := CNull]> (<["uname" := CStr ""]> ∅).
Definition orphan : row := <["user" := CRef 99]> (<["uname" := CStr ""]> ∅).
Definition filled : row := <["user" := CRef 8]> (<["uname" := CStr "bob"]> ∅).
Definition unset : row := <["user" := CRef 99]> (<["uname" := CNull]> ∅).
Definition stale : row := <["user" := CRef 8]> (<["uname" := CStr "robert"]> ∅).

Definition posts : table :=
  <[1 := filled]> (<[2 := stale]> (<[3 := anonymous]> ∅)).

Definition field : UsernameField :=
  UsernameField_init None (Some 5) (Some "uname").
Definition wide_field : UsernameField :=
  UsernameField_init None None (Some "uname").

Definition world0 : world :=
  {| heap := <[0%nat := fresh]> (<[1%nat := anonymous]> (<[2%nat := orphan]>
               (<[3%nat := filled]> (<[4%nat := unset]> ∅))));
     tables := <["User" := users]> (<["Post" := posts]> ∅);
     instances := [(Post, "user", "uname", 5); (Post, "user", "uname", 30)];
     trace := [];
     stdout := [] |}.
End Sample.

(** Two worlds holding the same instances and the same database. *)
Definition same_store (w1 w2 : world) : Prop :=
  heap w1 = heap w2 /\ tables w1 = tables w2.

(** A computation whose outcome, and whose effect on instances and database,
    are fixed by the instances and the database it starts from. *)
Definition store_determined {A} (m : Py A) : Prop :=
  forall w1 w2, same_store w1 w2 ->
    fst (m w1) = fst (m w2) /\ same_store (snd (m w1)) (snd (m w2)).

(** [w'] differs from [w] at most in the trace and in the attribute [attr]
    of the instance [obj]. *)
Definition only_sets (obj : loc) (attr : string) (w w' : world) : Prop :=
  tables w' = tables w /\ instances w' = instances w /\ stdout w' = stdout w /\
  (forall l, l <> obj -> heap w' !! l = heap w !! l) /\
  (heap w' !! obj = heap w !! obj \/
   exists (d : row) (c : cell),
     heap w !! obj = Some d /\ heap w' !! obj = Some (<[attr := c]> d)).

Definition writes_only {A} (obj : loc) (attr : string) (m : Py A) : Prop :=
  forall w, only_sets obj attr w (snd (m w)).

(** A second concrete world, with a registry as two model declarations
    produce it: [Post.uname] follows [Post.user] (30 characters) and
    [Comment.author_name] follows [Comment.author] (3 characters). *)
Module Blog.
Definition Post : model_class := {| model_name := "Post"; abstract := false |}.
Definition Comment : model_class := {| model_name := "Comment"; abstract := false |}.

Definition users : table :=
  <[7 := <["username" := CStr "alice"]> ∅]>
  (<[8 := <["username" := CStr "bob"]> ∅]> ∅).

Definition post_by_alice : row := <["user" := CRef 7]> (<["uname" := CStr "alice"]> ∅).
Definition post_by_bob : row := <["user" := CRef 8]> (<["uname" := CStr "bob"]> ∅).
Definition comment_by_bob : row :=
  <["author" := CRef 8]> (<["author_name" := CStr "bob"]> ∅).
Definition draft : row := <["user" := CRef 8]> (<["uname" := CStr ""]> ∅).
Definition broken : row := <["uname" := CStr ""]> ∅.
Definition nameless : row := <["user" := CRef 9]> (<["uname" := CStr ""]> ∅).

Definition field : UsernameField := UsernameField_init None None (Some "uname").

Definition world0 : world :=
  {| heap := <[0%nat := draft]> (<[1%nat := post_by_bob]> (<[2%nat := broken]>
               (<[3%nat := nameless]> ∅)));
     tables := <["User" := <[9 := <["username" := CNull]> ∅]> users]>
               (<["Post" := <[1 := post_by_alice]> (<[2 := post_by_bob]> ∅)]>
               (<["Comment" := <[1 := comment_by_bob]> ∅]> ∅));
     instances := [(Post, "user", "uname", 30); (Comment, "author", "author_name", 3)];
     trace := [];
     stdout := [] |}.
End Blog.

(** A world in which a declared-nullable target is NULL although its user
    has a name. *)
Module Nullable.
Definition Post : model_class := {| model_name := "Post"; abstract := false |}.
Definition post : row := <["user" := CRef 8]> (<["uname" := CNull]> ∅).

Definition world0 : world :=
  {| heap := ∅;
     tables := <["User" := <[8 := <["username" := CStr "bob"]> ∅]> ∅]>
               (<["Post" := <[1 := post]> ∅]> ∅);
     instances := [(Post, "user", "uname", 30)];
     trace := [];
     stdout := [] |}.
End Nullable.

(** ** Laws of the monad *)

Section MonadLaws.
Context {A B : Type}.

Lemma bind_ok (m : Py A) (k : A -> Py B) (w w' : world) (a : A) :
  m w = (Ok a, w') -> (m ≫= k) w = k a w'.
Proof. intros H. unfold mbind, Py_bind, bind. by rewrite H. Qed.

Lemma bind_raise (m : Py A) (k : A -> Py B) (w w' : world) (e : exn) :
  m w = (Raise e, w') -> (m ≫= k) w = (Raise e, w').
Proof. intros H. unfold mbind, Py_bind, bind. by rewrite H. Qed.
End MonadLaws.

Lemma try_except_ok (body handler : Py unit) (caught : exn) (w w' : world) (a : unit) :
  body w = (Ok a, w') -> try_except body caught handler w = (Ok a, w').
Proof. intros H. unfold try_except. by rewrite H. Qed.

Lemma try_except_caught (body handler : Py unit) (caught : exn) (w w' : world) :
  body w = (Raise caught, w') -> try_except body caught handler w = handler w'.
Proof. intros H. unfold try_except. rewrite H. by rewrite decide_True. Qed.

(** ** String slices *)

Lemma substring_clip (s : string) (n : nat) :
  substring 0 (Nat.min n (String.length s)) s = substring 0 n s.
Proof.
  revert n. induction s as [|c s IH]; intros [|n]; simpl; try reflexivity.
  by rewrite IH.
Qed.

Lemma substring_whole (s : string) (n : nat) :
  (String.length s <= n)%nat -> substring 0 n s = s.
Proof.
  revert n.
  induction s as [|c s IH]; intros [|n] H; simpl in *; try reflexivity; try lia.
  rewrite IH; [reflexivity | lia].
Qed.

Lemma py_slice_to_nonneg (s : string) (stop : Z) :
  0 <= stop -> py_slice_to s stop = substring 0 (Z.to_nat stop) s.
Proof.
  intros H. unfold py_slice_to.
  destruct (Z.ltb_spec stop 0) as [?|_]; [lia|].
  rewrite <- (substring_clip s (Z.to_nat stop)). f_equal. lia.
Qed.

Lemma py_slice_to_short (s : string) (stop : Z) :
  Z.of_nat (String.length s) <= stop -> py_slice_to s stop = s.
Proof.
  intros H. rewrite py_slice_to_nonneg by lia. apply substring_whole. lia.
Qed.

Example slice_truncates : py_slice_to "alice_in_wonderland" 5 = "alice".
Proof. reflexivity. Qed.

Example slice_keeps_short : py_slice_to "bob" 30 = "bob".
Proof. reflexivity. Qed.

Example slice_from_the_end : py_slice_to "alice" (-1) = "alic".
Proof. reflexivity. Qed.

(** ** Attribute access *)

Lemma getattr_found (obj : loc) (attr : string) (w : world) (d : row) (c : cell) :
  heap w !! obj = Some d -> d !! attr = Some c ->
  getattr obj attr w = resolve c (log (Getattr obj attr) w).
Proof. intros Hobj Hattr. unfold getattr. by rewrite Hobj, Hattr. Qed.

Lemma getattr_str (obj : loc) (attr : string) (w : world) (d : row) (s : string) :
  heap w !! obj = Some d -> d !! attr = Some (CStr s) ->
  getattr obj attr w = (Ok (VStr s), log (Getattr obj attr) w).
Proof. intros Hobj Hattr. by rewrite (getattr_found _ _ _ _ _ Hobj Hattr). Qed.

Lemma getattr_null (obj : loc) (attr : string) (w : world) (d : row) :
  heap w !! obj = Some d -> d !! attr = Some CNull ->
  getattr obj attr w = (Ok VNone, log (Getattr obj attr) w).
Proof. intros Hobj Hattr. by rewrite (getattr_found _ _ _ _ _ Hobj Hattr). Qed.

Lemma getattr_related (obj : loc) (attr : string) (w : world) (d u : row) (id : Z) :
  heap w !! obj = Some d -> d !! attr = Some (CRef id) ->
  table_of w User !! id = Some u ->
  getattr obj attr w = (Ok (VObj id u), log (Getattr obj attr) w).
Proof.
  intros Hobj Hattr Hu. rewrite (getattr_found _ _ _ _ _ Hobj Hattr).
  unfold resolve. change (table_of (log _ w) User) with (table_of w User).
  by rewrite Hu.
Qed.

Lemma getattr_dangling (obj : loc) (attr : string) (w : world) (d : row) (id : Z) :
  heap w !! obj = Some d -> d !! attr = Some (CRef id) ->
  table_of w User !! id = None ->
  getattr obj attr w = (Raise ObjectDoesNotExist, log (Getattr obj attr) w).
Proof.
  intros Hobj Hattr Hu. rewrite (getattr_found _ _ _ _ _ Hobj Hattr).
  unfold resolve. change (table_of (log _ w) User) with (table_of w User).
  by rewrite Hu.
Qed.

Lemma setattr_found (obj : loc) (attr : string) (v : pyval) (w : world) (d : row) :
  heap w !! obj = Some d ->
  setattr obj attr v w =
    (Ok tt,
     {| heap := <[obj := <[attr := to_cell v]> d]> (heap w);
        tables := tables w; instances := instances w;
        trace := trace w ++ [Setattr obj attr v]; stdout := stdout w |}).
Proof. intros Hobj. unfold setattr. by rewrite Hobj. Qed.

(** A read never changes anything but the trace. *)
Lemma resolve_world (c : cell) (w : world) : snd (resolve c w) = w.
Proof. unfold resolve. destruct c; try done. by destruct (table_of w User !! id). Qed.

Lemma getattr_world (obj : loc) (attr : string) (w : world) :
  snd (getattr obj attr w) = log (Getattr obj attr) w.
Proof.
  unfold getattr. destruct (heap w !! obj) as [d|]; [|done].
  destruct (d !! attr); [|done]. apply resolve_world.
Qed.

(** What a read returns depends on the instances and the tables only. *)
Lemma getattr_value_log (obj : loc) (attr : string) (e : event) (w : world) :
  fst (getattr obj attr (log e w)) = fst (getattr obj attr w).
Proof.
  unfold getattr. change (heap (log e w)) with (heap w).
  destruct (heap w !! obj) as [d|]; [|done].
  destruct (d !! attr) as [c|]; [|done].
  unfold resolve. destruct c; try done.
  change (table_of (log _ (log e w)) User) with (table_of w User).
  change (table_of (log _ w) User) with (table_of w User).
  by destruct (table_of w User !! id).
Qed.

Lemma slice_to_str (s : string) (stop : Z) (w : world) :
  slice_to (VStr s) stop w = (Ok (VStr (py_slice_to s stop)), w).
Proof. reflexivity. Qed.

Lemma world_eq (w1 w2 : world) :
  heap w1 = heap w2 -> tables w1 = tables w2 -> instances w1 = instances w2 ->
  trace w1 = trace w2 -> stdout w1 = stdout w2 -> w1 = w2.
Proof. destruct w1, w2; simpl; intros; by subst. Qed.

(** ** pre_save *)

(** The guarded block of [pre_save] when the relation leads to a user. *)
Lemma populate_block_related (self : UsernameField) (obj : loc) (w : world)
    (d u : row) (id : Z) (uname : string) :
  heap w !! obj = Some d ->
  d !! populate_from self = Some (CRef id) ->
  table_of w User !! id = Some u ->
  u !! "username" = Some (CStr uname) ->
  let s := VStr (py_slice_to uname (max_length self)) in
  (user ← getattr obj (populate_from self);
   match user with
   | VNone => setattr obj (name self) (VStr "")
   | _ =>
       u0 ← getfield user "username";
       s ← slice_to u0 (max_length self);
       setattr obj (name self) s
   end) w =
  (Ok tt,
   {| heap := <[obj := <[name self := to_cell s]> d]> (heap w);
      tables := tables w; instances := instances w;
      trace := trace w ++ [Getattr obj (populate_from self); Setattr obj (name self) s];
      stdout := stdout w |}).
Proof.
  intros Hobj Hrel Hu Hname s.
  rewrite (bind_ok _ _ _ _ _ (getattr_related _ _ _ _ _ _ Hobj Hrel Hu)).
  assert (Hf : getfield (VObj id u) "username" (log (Getattr obj (populate_from self)) w)
               = (Ok (VStr uname), log (Getattr obj (populate_from self)) w)).
  { unfold getfield. by rewrite Hname. }
  rewrite (bind_ok _ _ _ _ _ Hf).
  rewrite (bind_ok _ _ _ _ _ (slice_to_str uname (max_length self) _)).
  rewrite (setattr_found _ _ _ _ d) by exact Hobj.
  f_equal. apply world_eq; simpl; try done. by rewrite <- !app_assoc.
Qed.

(** C1: when the target attribute is the empty string and the relation named
    by [populate_from] leads to a user, [pre_save] stores the slice
    [username[:max_length]] under the target attribute and returns it; for a
    non-negative [max_length] that slice is the first [max_length] characters
    of the username, and the whole username when it is no longer than
    [max_length]. *)
Theorem pre_save_populates (self : UsernameField) (obj : loc) (add : bool)
    (w : world) (d u : row) (id : Z) (uname : string) :
  heap w !! obj = Some d ->
  d !! name self = Some (CStr "") ->
  d !! populate_from self = Some (CRef id) ->
  table_of w User !! id = Some u ->
  u !! "username" = Some (CStr uname) ->
  let v := py_slice_to uname (max_length self) in
  pre_save self obj add w =
    (Ok (VStr v),
     {| heap := <[obj := <[name self := CStr v]> d]> (heap w);
        tables := tables w; instances := instances w;
        trace := trace w ++ [Getattr obj (name self); Getattr obj (populate_from self);
                             Setattr obj (name self) (VStr v); Getattr obj (name self)];
        stdout := stdout w |}) /\
  (0 <= max_length self -> v = substring 0 (Z.to_nat (max_length self)) uname) /\
  (Z.of_nat (String.length uname) <= max_length self -> v = uname).
Proof.
  intros Hobj Hcur Hrel Hu Hname v. split; [|split].
  - unfold pre_save.
    rewrite (bind_ok _ _ _ _ _ (getattr_str _ _ _ _ _ Hobj Hcur)).
    rewrite decide_True by done.
    erewrite bind_ok;
      [| apply try_except_ok;
         apply (populate_block_related self obj _ d u id uname); done].
    erewrite getattr_str; [| simpl; apply lookup_insert_eq | apply lookup_insert_eq].
    f_equal. apply world_eq; simpl; try done. by rewrite <- !app_assoc.
  - intros H. by apply py_slice_to_nonneg.
  - intros H. by apply py_slice_to_short.
Qed.

Lemma pre_save_populates_witness :
  pre_save Sample.field 0%nat true Sample.world0 =
    (Ok (VStr "alice"),
     {| heap := <[0%nat := <["uname" := CStr "alice"]> Sample.fresh]> (heap Sample.world0);
        tables := tables Sample.world0; instances := instances Sample.world0;
        trace := [Getattr 0%nat "uname"; Getattr 0%nat "user";
                  Setattr 0%nat "uname" (VStr "alice"); Getattr 0%nat "uname"];
        stdout := [] |}).
Proof.
  apply (pre_save_populates Sample.field 0%nat true Sample.world0 Sample.fresh
           (<["username" := CStr "alice_in_wonderland"]> ∅) 7 "alice_in_wonderland");
    reflexivity.
Defined.

(** C3: when the target attribute is the empty string and the relation is
    dangling (its key has no row in the user table), [pre_save] swallows
    [ObjectDoesNotExist]: it raises nothing, writes nothing, and returns the
    current (empty) value of the target attribute. *)
Theorem pre_save_dangling (self : UsernameField) (obj : loc) (add : bool)
    (w : world) (d : row) (id : Z) :
  heap w !! obj = Some d ->
  d !! name self = Some (CStr "") ->
  d !! populate_from self = Some (CRef id) ->
  table_of w User !! id = None ->
  pre_save self obj add w =
    (Ok (VStr ""),
     {| heap := heap w; tables := tables w; instances := instances w;
        trace := trace w ++ [Getattr obj (name self); Getattr obj (populate_from self);
                             Getattr obj (name self)];
        stdout := stdout w |}) /\
  heap (exec (pre_save self obj add) w) !! obj = Some d.
Proof.
  intros Hobj Hcur Hrel Hu.
  assert (Hrun : pre_save self obj add w =
    (Ok (VStr ""),
     {| heap := heap w; tables := tables w; instances := instances w;
        trace := trace w ++ [Getattr obj (name self); Getattr obj (populate_from self);
                             Getattr obj (name self)];
        stdout := stdout w |})).
  { unfold pre_save.
    rewrite (bind_ok _ _ _ _ _ (getattr_str _ _ _ _ _ Hobj Hcur)).
    rewrite decide_True by done.
    erewrite bind_ok;
      [| apply try_except_caught; apply bind_raise;
         apply (getattr_dangling obj (populate_from self) _ d id); done].
    erewrite getattr_str; [| exact Hobj | exact Hcur].
    f_equal. apply world_eq; simpl; try done. by rewrite <- !app_assoc. }
  split; [exact Hrun|]. unfold exec. by rewrite Hrun.
Qed.

Lemma pre_save_dangling_witness :
  pre_save Sample.field 2%nat false Sample.world0 =
    (Ok (VStr ""),
     {| heap := heap Sample.world0; tables := tables Sample.world0;
        instances := instances Sample.world0;
        trace := [Getattr 2%nat "uname"; Getattr 2%nat "user"; Getattr 2%nat "uname"];
        stdout := [] |}).
Proof.
  apply (pre_save_dangling Sample.field 2%nat false Sample.world0 Sample.orphan 99);
    reflexivity.
Defined.

(** C9: when the target attribute is the empty string and the relation is
    null, [pre_save] assigns the empty string to the target attribute and
    returns the empty string. *)
Theorem pre_save_null_relation (self : UsernameField) (obj : loc) (add : bool)
    (w : world) (d : row) :
  heap w !! obj = Some d ->
  d !! name self = Some (CStr "") ->
  d !! populate_from self = Some CNull ->
  pre_save self obj add w =
    (Ok (VStr ""),
     {| heap := <[obj := <[name self := CStr ""]> d]> (heap w);
        tables := tables w; instances := instances w;
        trace := trace w ++ [Getattr obj (name self); Getattr obj (populate_from self);
                             Setattr obj (name self) (VStr ""); Getattr obj (name self)];
        stdout := stdout w |}) /\
  heap (exec (pre_save self obj add) w) !! obj = Some d.
Proof.
  intros Hobj Hcur Hrel.
  assert (Hrun : pre_save self obj add w =
    (Ok (VStr ""),
     {| heap := <[obj := <[name self := CStr ""]> d]> (heap w);
        tables := tables w; instances := instances w;
        trace := trace w ++ [Getattr obj (name self); Getattr obj (populate_from self);
                             Setattr obj (name self) (VStr ""); Getattr obj (name self)];
        stdout := stdout w |})).
  { unfold pre_save.
    rewrite (bind_ok _ _ _ _ _ (getattr_str _ _ _ _ _ Hobj Hcur)).
    rewrite decide_True by done.
    erewrite bind_ok;
      [| apply try_except_ok;
         rewrite (bind_ok _ _ _ _ _
                    (getattr_null obj (populate_from self)
                       (log (Getattr obj (name self)) w) d Hobj Hrel));
         apply (setattr_found _ _ _ _ d); exact Hobj].
    erewrite getattr_str; [| simpl; apply lookup_insert_eq | apply lookup_insert_eq].
    f_equal. apply world_eq; simpl; try done. by rewrite <- !app_assoc. }
  split; [exact Hrun|]. unfold exec. rewrite Hrun. simpl.
  rewrite lookup_insert_eq. f_equal. by apply insert_id.
Qed.

Lemma pre_save_null_relation_witness :
  pre_save Sample.field 1%nat true Sample.world0 =
    (Ok (VStr ""),
     {| heap := <[1%nat := <["uname" := CStr ""]> Sample.anonymous]> (heap Sample.world0);
        tables := tables Sample.world0; instances := instances Sample.world0;
        trace := [Getattr 1%nat "uname"; Getattr 1%nat "user";
                  Setattr 1%nat "uname" (VStr ""); Getattr 1%nat "uname"];
        stdout := [] |}).
Proof.
  apply (pre_save_null_relation Sample.field 1%nat true Sample.world0 Sample.anonymous);
    reflexivity.
Defined.

(** When the target attribute reads as anything but the empty string, the
    guarded block is not entered: [pre_save] reads the target twice and
    returns what it read. *)
Lemma pre_save_skips (self : UsernameField) (obj : loc) (add : bool)
    (w : world) (v : pyval) :
  fst (getattr obj (name self) w) = Ok v ->
  v <> VStr "" ->
  pre_save self obj add w =
    (Ok v, log (Getattr obj (name self)) (log (Getattr obj (name self)) w)).
Proof.
  intros Hv Hne.
  assert (H1 : getattr obj (name self) w = (Ok v, log (Getattr obj (name self)) w)).
  { rewrite (surjective_pairing (getattr _ _ w)). by rewrite Hv, getattr_world. }
  unfold pre_save. rewrite (bind_ok _ _ _ _ _ H1).
  rewrite decide_False by done.
  rewrite (bind_ok (ret tt) _ _ _ tt eq_refl).
  rewrite (surjective_pairing (getattr _ _ (log _ w))).
  by rewrite getattr_value_log, Hv, getattr_world.
Qed.

(** C10: the guard of [pre_save] is equality with the empty string. Whenever
    the target attribute reads as any other value ([None] included),
    [pre_save] returns that value, leaves every instance and table as it
    was, and does nothing but read the target attribute twice: the relation
    named by [populate_from] is not looked up and nothing is assigned. *)
Theorem pre_save_guard_strict (self : UsernameField) (obj : loc) (add : bool)
    (w : world) (v : pyval) :
  fst (getattr obj (name self) w) = Ok v ->
  v <> VStr "" ->
  pre_save self obj add w =
    (Ok v,
     {| heap := heap w; tables := tables w; instances := instances w;
        trace := trace w ++ [Getattr obj (name self); Getattr obj (name self)];
        stdout := stdout w |}) /\
  (forall ev : event,
     ev ∈ drop (length (trace w)) (trace (exec (pre_save self obj add) w)) ->
     ev = Getattr obj (name self)).
Proof.
  intros Hv Hne.
  assert (Hrun : pre_save self obj add w =
    (Ok v,
     {| heap := heap w; tables := tables w; instances := instances w;
        trace := trace w ++ [Getattr obj (name self); Getattr obj (name self)];
        stdout := stdout w |})).
  { rewrite (pre_save_skips self obj add w v Hv Hne).
    f_equal. apply world_eq; simpl; try done. by rewrite <- app_assoc. }
  split; [exact Hrun|].
  intros ev. unfold exec. rewrite Hrun. simpl.
  rewrite drop_app_length. intros Hin.
  apply list_elem_of_In in Hin. simpl in Hin. intuition congruence.
Qed.

Lemma pre_save_guard_strict_witness :
  pre_save Sample.field 4%nat true Sample.world0 =
    (Ok VNone,
     {| heap := heap Sample.world0; tables := tables Sample.world0;
        instances := instances Sample.world0;
        trace := [Getattr 4%nat "uname"; Getattr 4%nat "uname"];
        stdout := [] |}).
Proof.
  apply (pre_save_guard_strict Sample.field 4%nat true Sample.world0 VNone);
    [reflexivity | discriminate].
Defined.

(** C6: when the target attribute is not empty, [pre_save] changes no
    instance and no table, so a second call finds the world of the first:
    both calls return the same value and the target attribute reads the
    same after two calls as after one. *)
Theorem pre_save_idempotent (self : UsernameField) (obj : loc) (add add' : bool)
    (w : world) (v : pyval) :
  fst (getattr obj (name self) w) = Ok v ->
  v <> VStr "" ->
  let w1 := exec (pre_save self obj add) w in
  let w2 := exec (pre_save self obj add') w1 in
  heap w1 = heap w /\ tables w1 = tables w /\
  heap w2 = heap w1 /\ tables w2 = tables w1 /\
  fst (pre_save self obj add w) = Ok v /\
  fst (pre_save self obj add' w1) = Ok v /\
  fst (getattr obj (name self) w2) = fst (getattr obj (name self) w1) /\
  fst (getattr obj (name self) w1) = Ok v.
Proof.
  intros Hv Hne w1 w2.
  assert (Hv1 : fst (getattr obj (name self) w1) = Ok v).
  { unfold w1, exec. rewrite (pre_save_skips self obj add w v Hv Hne). simpl.
    by rewrite !getattr_value_log. }
  assert (Hv2 : fst (getattr obj (name self) w2) = Ok v).
  { unfold w2, exec. rewrite (pre_save_skips self obj add' w1 v Hv1 Hne). simpl.
    by rewrite !getattr_value_log. }
  unfold w2, w1, exec in *.
  rewrite (pre_save_skips self obj add w v Hv Hne) in *. simpl in *.
  rewrite (pre_save_skips self obj add' _ v Hv1 Hne) in *. simpl in *.
  repeat split; try done. congruence.
Qed.

Lemma pre_save_idempotent_witness :
  fst (pre_save Sample.field 3%nat false
         (exec (pre_save Sample.field 3%nat true) Sample.world0)) = Ok (VStr "bob").
Proof.
  apply (pre_save_idempotent Sample.field 3%nat true false Sample.world0 (VStr "bob"));
    [reflexivity | discriminate].
Defined.

(** ** The registry *)

Section KeepsInstances.
Context {A B : Type}.

Lemma keeps_ret (a : A) : keeps_instances (ret a).
Proof. by intros w. Qed.

Lemma keeps_raise (e : exn) : keeps_instances (@raise A e).
Proof. by intros w. Qed.

Lemma keeps_bind (m : Py A) (k : A -> Py B) :
  keeps_instances m -> (forall a, keeps_instances (k a)) ->
  keeps_instances (m ≫= k).
Proof.
  intros Hm Hk w. unfold mbind, Py_bind, bind.
  specialize (Hm w). destruct (m w) as [[a|e] w']; simpl in *; [|done].
  by rewrite Hk.
Qed.
End KeepsInstances.

Lemma keeps_try_except (body handler : Py unit) (caught : exn) :
  keeps_instances body -> keeps_instances handler ->
  keeps_instances (try_except body caught handler).
Proof.
  intros Hb Hh w. unfold try_except.
  specialize (Hb w). destruct (body w) as [[a|e] w']; simpl in *; [done|].
  destruct (decide (e = caught)); [|done]. by rewrite Hh.
Qed.

Lemma keeps_resolve (c : cell) : keeps_instances (resolve c).
Proof. intros w. by rewrite resolve_world. Qed.

Lemma keeps_getattr (obj : loc) (attr : string) : keeps_instances (getattr obj attr).
Proof. intros w. by rewrite getattr_world. Qed.

Lemma keeps_setattr (obj : loc) (attr : string) (v : pyval) :
  keeps_instances (setattr obj attr v).
Proof. intros w. unfold setattr. by destruct (heap w !! obj). Qed.

Lemma keeps_getfield (v : pyval) (attr : string) : keeps_instances (getfield v attr).
Proof.
  destruct v as [| |pk u]; simpl; try apply keeps_raise.
  destruct (u !! attr); [apply keeps_resolve | apply keeps_raise].
Qed.

Lemma keeps_slice_to (v : pyval) (stop : Z) : keeps_instances (slice_to v stop).
Proof. destruct v; simpl; first [apply keeps_raise | apply keeps_ret]. Qed.

Lemma keeps_pre_save (self : UsernameField) (obj : loc) (add : bool) :
  keeps_instances (pre_save self obj add).
Proof.
  unfold pre_save.
  apply keeps_bind; [apply keeps_getattr|]. intros cur.
  apply keeps_bind; [|intros _; apply keeps_getattr].
  destruct (decide (cur = VStr "")); [|apply keeps_ret].
  apply keeps_try_except; [|apply keeps_ret].
  apply keeps_bind; [apply keeps_getattr|]. intros user.
  assert (Hfill : keeps_instances
            (u ← getfield user "username";
             s ← slice_to u (max_length self);
             setattr obj (name self) s)).
  { apply keeps_bind; [apply keeps_getfield|]. intros u.
    apply keeps_bind; [apply keeps_slice_to|]. intros s. apply keeps_setattr. }
  destruct user; [apply keeps_setattr | exact Hfill | exact Hfill].
Qed.

(** ** Loops *)

Lemma for_each_total {A} (body : A -> Py unit) :
  (forall a w, fst (body a w) = Ok tt) ->
  forall l w, for_each l body w = (Ok tt, fold_left (fun w a => exec (body a) w) l w).
Proof.
  intros Hbody l. induction l as [|a l IH]; intros w; simpl; [done|].
  rewrite (bind_ok (body a) _ w (exec (body a) w) tt).
  - apply IH.
  - rewrite (surjective_pairing (body a w)). by rewrite Hbody.
Qed.

Lemma for_each_split {A} (body : A -> Py unit) :
  (forall a w, fst (body a w) = Ok tt) ->
  forall l1 a l2 w,
    exec (for_each (l1 ++ a :: l2) body) w =
    exec (for_each l2 body) (exec (body a) (exec (for_each l1 body) w)).
Proof.
  intros Hbody l1 a l2 w. unfold exec at 1 2 4.
  rewrite !(for_each_total body Hbody). simpl.
  by rewrite fold_left_app.
Qed.

(** ** Database updates *)

Lemma update_rows_lookup (flt : lookup) (col v : string) (t : table) (pk : Z) :
  update_rows flt col v t !! pk =
  (fun r => if row_matches flt pk r then <[col := CStr v]> r else r) <$> t !! pk.
Proof. unfold update_rows. rewrite map_lookup_imap. by destruct (t !! pk). Qed.

Lemma update_rows_empty (flt : lookup) (col v : string) :
  update_rows flt col v ∅ = ∅.
Proof. apply map_eq. intros pk. by rewrite update_rows_lookup, !lookup_empty. Qed.

Lemma apply_update_table (m : model_class) (flt : lookup) (col v : string)
    (db : gmap string table) (n : string) :
  default ∅ (apply_update m flt col v db !! n) =
  if decide (n = model_name m) then update_rows flt col v (default ∅ (db !! n))
  else default ∅ (db !! n).
Proof.
  unfold apply_update. destruct (decide (n = model_name m)) as [->|Hne].
  - rewrite lookup_alter_eq. destruct (db !! model_name m); simpl; [done|].
    by rewrite update_rows_empty.
  - by rewrite lookup_alter_ne.
Qed.

Lemma apply_event_rows (ev : event) (db : gmap string table) (n : string) (pk : Z) :
  is_Some (default ∅ (apply_event ev db !! n) !! pk) <->
  is_Some (default ∅ (db !! n) !! pk).
Proof.
  destruct ev; simpl; try done.
  rewrite apply_update_table. destruct (decide (n = model_name m)); [|done].
  rewrite update_rows_lookup. apply fmap_is_Some.
Qed.

Lemma apply_events_rows (evs : list event) (db : gmap string table) (n : string) (pk : Z) :
  is_Some (default ∅ (fold_left (fun db ev => apply_event ev db) evs db !! n) !! pk) <->
  is_Some (default ∅ (db !! n) !! pk).
Proof.
  revert db. induction evs as [|ev evs IH]; intros db; simpl; [done|].
  rewrite IH. apply apply_event_rows.
Qed.

(** ** rename_username *)

Lemma rename_entry_run (user_id : Z) (username : string) (e : entry) (w : world) :
  rename_entry user_id username e w =
  (Ok tt,
   {| heap := heap w;
      tables := apply_event (update_of user_id username e) (tables w);
      instances := instances w;
      trace := trace w ++ [update_of user_id username e];
      stdout := stdout w |}).
Proof. by destruct e as [[[model source] target] ml]. Qed.

Lemma rename_loop_run (user_id : Z) (username : string) (l : list entry) (w : world) :
  fold_left (fun w e => exec (rename_entry user_id username e) w) l w =
  {| heap := heap w;
     tables := fold_left (fun db ev => apply_event ev db)
                 (map (update_of user_id username) l) (tables w);
     instances := instances w;
     trace := trace w ++ map (update_of user_id username) l;
     stdout := stdout w |}.
Proof.
  revert w. induction l as [|e l IH]; intros w; simpl.
  - apply world_eq; simpl; try done. by rewrite app_nil_r.
  - rewrite IH. unfold exec. rewrite rename_entry_run. simpl.
    apply world_eq; simpl; try done. by rewrite <- app_assoc.
Qed.

Lemma rename_username_run (user_id : Z) (username : string) (w : world) :
  let stmts := (map (update_of user_id username) (instances w) ++
                [Update User (ByPk user_id) "username" username]) in
  rename_username user_id username w =
  (Ok tt,
   {| heap := heap w;
      tables := fold_left (fun db ev => apply_event ev db) stmts (tables w);
      instances := instances w;
      trace := trace w ++ stmts;
      stdout := stdout w |}).
Proof.
  intros stmts. unfold rename_username.
  rewrite (bind_ok get_instances _ w w (instances w) eq_refl).
  erewrite bind_ok;
    [| apply for_each_total; intros e w0; by rewrite rename_entry_run].
  rewrite rename_loop_run. unfold q_update. simpl. f_equal.
  apply world_eq; simpl; try done.
  - unfold stmts. by rewrite fold_left_app.
  - unfold stmts. by rewrite app_assoc.
Qed.

(** C2: [rename_username] issues one update per registry entry, filtered on
    the entry's source key being [user_id] and assigning the slice
    [username[:max_length]] to the entry's target, then one update of the
    user's own [username] to the untruncated string; the database it leaves
    is the result of those statements, each of which rewrites exactly the
    matching rows. *)
Theorem rename_username_updates (user_id : Z) (username : string) (w : world) :
  let w' := exec (rename_username user_id username) w in
  let stmts := (map (update_of user_id username) (instances w) ++
                [Update User (ByPk user_id) "username" username]) in
  fst (rename_username user_id username w) = Ok tt /\
  trace w' = trace w ++ stmts /\
  tables w' = fold_left (fun db ev => apply_event ev db) stmts (tables w) /\
  (forall model source target max_length,
     update_of user_id username (model, source, target, max_length) =
       Update model (ByField source user_id) target (py_slice_to username max_length) /\
     (0 <= max_length ->
      py_slice_to username max_length = substring 0 (Z.to_nat max_length) username)) /\
  (forall model source target v db pk,
     default ∅ (apply_event (Update model (ByField source user_id) target v) db
                  !! model_name model) !! pk =
     (fun r => if decide (r !! source = Some (CRef user_id))
               then <[target := CStr v]> r else r)
       <$> default ∅ (db !! model_name model) !! pk) /\
  (forall model flt col v db n,
     n <> model_name model ->
     apply_event (Update model flt col v) db !! n = db !! n) /\
  (forall u, table_of w User !! user_id = Some u ->
     exists u', table_of w' User !! user_id = Some u' /\
                u' !! "username" = Some (CStr username)).
Proof.
  intros w' stmts.
  pose proof (rename_username_run user_id username w) as Hrun. simpl in Hrun.
  fold stmts in Hrun.
  assert (Hw' : w' = snd (rename_username user_id username w)) by done.
  rewrite Hrun in Hw'. simpl in Hw'.
  split; [by rewrite Hrun|].
  split; [by rewrite Hw'|].
  split; [by rewrite Hw'|].
  split.
  { intros model source target ml. split; [done|]. apply py_slice_to_nonneg. }
  split.
  { intros model source target v db pk. simpl.
    rewrite apply_update_table, decide_True by done.
    rewrite update_rows_lookup.
    destruct (default ∅ (db !! model_name model) !! pk) as [r|]; simpl; [|done].
    f_equal.
    destruct (decide (r !! source = Some (CRef user_id))) as [H|H];
      [by rewrite bool_decide_true | by rewrite bool_decide_false]. }
  split.
  { intros model flt col v db n Hne. simpl. unfold apply_update.
    by rewrite lookup_alter_ne. }
  intros u Hu. unfold table_of. rewrite Hw'. simpl.
  unfold stmts. rewrite fold_left_app. simpl.
  set (db := fold_left _ _ (tables w)).
  rewrite (apply_update_table User (ByPk user_id) "username" username db "User").
  rewrite decide_True by done. rewrite update_rows_lookup.
  assert (Hsome : is_Some (default ∅ (db !! "User") !! user_id)).
  { unfold db. apply apply_events_rows. unfold table_of in Hu. simpl in Hu.
    by rewrite Hu. }
  destruct Hsome as [r Hr]. rewrite Hr. simpl.
  rewrite bool_decide_true by done.
  eexists. split; [done|]. apply lookup_insert_eq.
Qed.

Lemma rename_username_updates_witness :
  exists u',
    table_of (exec (rename_username 8 "bobby_tables") Sample.world0) User !! 8 = Some u' /\
    u' !! "username" = Some (CStr "bobby_tables").
Proof.
  destruct (rename_username_updates 8 "bobby_tables" Sample.world0)
    as (_ & _ & _ & _ & _ & _ & Huser).
  apply (Huser (<["username" := CStr "bob"]> ∅)). reflexivity.
Defined.

Lemma contribute_to_class_run (self : UsernameField) (cls : model_class)
    (n : string) (w : world) :
  contribute_to_class self cls n w =
  (Ok {| populate_from := populate_from self; max_length := max_length self;
         name := n |},
   {| heap := heap w; tables := tables w;
      instances := if abstract cls then instances w
                   else instances w ++ [(cls, populate_from self, n, max_length self)];
      trace := trace w; stdout := stdout w |}).
Proof.
  unfold contribute_to_class, mbind, Py_bind, bind.
  destruct (abstract cls); simpl; f_equal; by destruct w.
Qed.

Example contribute_to_abstract_class :
  instances (exec (contribute_to_class Sample.field
                     {| model_name := "Base"; abstract := true |} "uname")
               Sample.world0) = instances Sample.world0.
Proof. reflexivity. Qed.

Example contribute_to_concrete_class :
  instances (exec (contribute_to_class Sample.field Sample.Post "uname")
               {| heap := ∅; tables := ∅; instances := []; trace := []; stdout := [] |})
  = [(Sample.Post, "user", "uname", 5)].
Proof. reflexivity. Qed.

(** C8: [rename_username] walks the registry in list order, which is the
    order of registration, and sends the update of the user's own record
    last, from the world in which every registry entry's update has been
    carried out. *)
Theorem rename_username_order (user_id : Z) (username : string) (w : world) :
  let w' := exec (rename_username user_id username) w in
  let final := Update User (ByPk user_id) "username" username in
  (exists w_mid,
     for_each (instances w) (rename_entry user_id username) w = (Ok tt, w_mid) /\
     trace w_mid = trace w ++ map (update_of user_id username) (instances w) /\
     tables w_mid = fold_left (fun db ev => apply_event ev db)
                      (map (update_of user_id username) (instances w)) (tables w) /\
     rename_username user_id username w =
       q_update User (ByPk user_id) "username" username w_mid) /\
  (forall (i : nat) (e : entry),
     instances w !! i = Some e ->
     trace w' !! (length (trace w) + i)%nat = Some (update_of user_id username e)) /\
  trace w' !! (length (trace w) + length (instances w))%nat = Some final /\
  length (trace w') = (length (trace w) + length (instances w) + 1)%nat /\
  (forall (f1 f2 : UsernameField) (c1 c2 : model_class) (n1 n2 : string),
     abstract c1 = false -> abstract c2 = false ->
     let w0 := exec (contribute_to_class f2 c2 n2)
                 (exec (contribute_to_class f1 c1 n1) w) in
     trace (exec (rename_username user_id username) w0) =
       trace w ++ map (update_of user_id username) (instances w) ++
       [update_of user_id username (c1, populate_from f1, n1, max_length f1);
        update_of user_id username (c2, populate_from f2, n2, max_length f2);
        Update User (ByPk user_id) "username" username]).
Proof.
  intros w' final.
  assert (Hloop : for_each (instances w) (rename_entry user_id username) w =
                  (Ok tt, fold_left (fun w e => exec (rename_entry user_id username e) w)
                            (instances w) w)).
  { apply for_each_total. intros e w0. by rewrite rename_entry_run. }
  assert (Htrace : trace w' = trace w ++ map (update_of user_id username) (instances w)
                              ++ [final]).
  { unfold w', exec. by rewrite rename_username_run. }
  split; [|split; [|split; [|split]]].
  - eexists. split; [exact Hloop|]. rewrite rename_loop_run. simpl.
    split; [done|]. split; [done|].
    unfold rename_username.
    rewrite (bind_ok get_instances _ w w (instances w) eq_refl).
    rewrite (bind_ok _ _ _ _ _ Hloop). by rewrite rename_loop_run.
  - intros i e Hi. rewrite Htrace.
    rewrite lookup_app_r by lia.
    replace (length (trace w) + i - length (trace w))%nat with i by lia.
    rewrite lookup_app_l by (rewrite length_map; by eapply lookup_lt_Some).
    by rewrite list_lookup_fmap, Hi.
  - rewrite Htrace. rewrite lookup_app_r by lia.
    rewrite lookup_app_r by (rewrite length_map; lia).
    rewrite length_map.
    by replace (length (trace w) + length (instances w) - length (trace w)
                - length (instances w))%nat with 0%nat by lia.
  - rewrite Htrace. rewrite !length_app, length_map. simpl. lia.
  - intros f1 f2 c1 c2 n1 n2 H1 H2 w0. unfold exec.
    rewrite rename_username_run. unfold w0, exec.
    rewrite !contribute_to_class_run. simpl. rewrite H1, H2.
    rewrite !map_app. simpl. by rewrite <- !app_assoc.
Qed.

Lemma rename_username_order_witness :
  trace (exec (rename_username 8 "bobby_tables")
           (exec (contribute_to_class Sample.wide_field Sample.Post "uname")
              (exec (contribute_to_class Sample.field Sample.Post "uname")
                 Sample.world0))) =
  [Update Sample.Post (ByField "user" 8) "uname" "bobby";
   Update Sample.Post (ByField "user" 8) "uname" "bobby_tables";
   Update Sample.Post (ByField "user" 8) "uname" "bobby";
   Update Sample.Post (ByField "user" 8) "uname" "bobby_tables";
   Update User (ByPk 8) "username" "bobby_tables"].
Proof.
  apply (rename_username_order 8 "bobby_tables" Sample.world0); reflexivity.
Defined.

(** ** lint *)

Lemma lint_entry_narrow (model : model_class) (source target : string)
    (ml : Z) (w : world) :
  ml < 30 ->
  lint_entry (model, source, target, ml) w =
  (Ok tt,
   {| heap := heap w; tables := tables w; instances := instances w;
      trace := trace w; stdout := stdout w ++ [Info model target] |}).
Proof.
  intros Hml. unfold lint_entry.
  by destruct (Z.ltb_spec ml 30) as [_|?]; [|lia].
Qed.

Lemma lint_entry_wide (model : model_class) (source target : string)
    (ml : Z) (w : world) :
  30 <= ml ->
  let qs := {| qs_model := model; qs_source := source; qs_target := target |} in
  let pks := qs_pks w qs in
  lint_entry (model, source, target, ml) w =
  (Ok tt,
   {| heap := heap w; tables := tables w; instances := instances w;
      trace := trace w ++ Exists qs :: (if decide (pks = []) then [] else [Select qs]);
      stdout := stdout w ++
                (if decide (pks = []) then []
                 else [Warning (length pks) model target pks]) |}).
Proof.
  intros Hml qs pks. unfold lint_entry.
  destruct (Z.ltb_spec ml 30) as [?|_]; [lia|].
  fold qs.
  rewrite (bind_ok (qs_exists qs) _ w (log (Exists qs) w)
             (bool_decide (pks <> [])) eq_refl).
  destruct (decide (pks = [])) as [Hnil|Hcons].
  - rewrite bool_decide_false by (intros H; by apply H). simpl.
    unfold ret. f_equal. apply world_eq; simpl; try done. by rewrite app_nil_r.
  - rewrite bool_decide_true by done. simpl.
    rewrite (bind_ok (qs_fetch qs) _ (log (Exists qs) w)
               (log (Select qs) (log (Exists qs) w)) pks eq_refl).
    unfold print. simpl. f_equal. apply world_eq; simpl; try done.
    by rewrite <- app_assoc.
Qed.

Lemma lint_entry_total (e : entry) (w : world) : fst (lint_entry e w) = Ok tt.
Proof.
  destruct e as [[[model source] target] ml].
  destruct (Z.lt_ge_cases ml 30) as [H|H].
  - by rewrite lint_entry_narrow.
  - by rewrite lint_entry_wide.
Qed.

Lemma lint_entry_frame (e : entry) (w : world) :
  heap (exec (lint_entry e) w) = heap w /\
  tables (exec (lint_entry e) w) = tables w /\
  instances (exec (lint_entry e) w) = instances w.
Proof.
  destruct e as [[[model source] target] ml]. unfold exec.
  destruct (Z.lt_ge_cases ml 30) as [H|H].
  - by rewrite lint_entry_narrow.
  - by rewrite lint_entry_wide.
Qed.

Lemma lint_loop_frame (l : list entry) (w : world) :
  heap (exec (for_each l lint_entry) w) = heap w /\
  tables (exec (for_each l lint_entry) w) = tables w /\
  instances (exec (for_each l lint_entry) w) = instances w.
Proof.
  unfold exec at 1 2 3. rewrite (for_each_total lint_entry lint_entry_total). simpl.
  revert w. induction l as [|e l IH]; intros w; simpl; [done|].
  destruct (IH (exec (lint_entry e) w)) as (-> & -> & ->).
  apply lint_entry_frame.
Qed.

Lemma lint_run (w : world) :
  lint w = (Ok tt, exec (for_each (instances w) lint_entry) w).
Proof.
  unfold lint. rewrite (bind_ok get_instances _ w w (instances w) eq_refl).
  unfold exec. by rewrite (for_each_total lint_entry lint_entry_total).
Qed.

Lemma qs_pks_tables (w w' : world) (qs : queryset) :
  tables w' = tables w -> qs_pks w' qs = qs_pks w qs.
Proof. intros H. unfold qs_pks, table_of. by rewrite H. Qed.

Lemma username_matches_false (users : table) (source target : string) (r : row) :
  username_matches users source target r = false <->
  mismatched users source target r.
Proof.
  unfold username_matches, mismatched. split.
  - intros H (id & u & s & H1 & H2 & H3 & H4).
    rewrite H1, H2, H3, H4 in H. by rewrite bool_decide_true in H.
  - intros H.
    destruct (r !! source) as [[| |id]|] eqn:E1; try done.
    destruct (users !! id) as [u|] eqn:E2; try done.
    destruct (u !! "username") as [[|a|]|] eqn:E3; try done.
    destruct (r !! target) as [[|b|]|] eqn:E4; try done.
    apply bool_decide_eq_false. intros ->. apply H. eauto 10.
Qed.

Lemma username_differs_reported (users : table) (source target : string) (r : row) :
  username_differs users source target r = true <-> reported users source target r.
Proof.
  unfold username_differs, reported.
  destruct (joined_username users source r) as [|a|id] eqn:Hj.
  - split; [by left|]. intros _. by destruct (default CNull (r !! target)).
  - destruct (r !! target) as [[|b|id]|] eqn:Ht; cbn.
    + split; [done|]. intros [|(c & [= <-] & Hc & _)]; done.
    + rewrite (bool_decide_true (CStr a <> CNull)) by done. cbn.
      destruct (decide (CStr a = CStr b)) as [Heq|Hne].
      * rewrite (bool_decide_true _ Heq). cbn.
        split; [done|]. intros [|(c & [= <-] & _ & Hc)]; [done|]. by destruct Hc.
      * rewrite (bool_decide_false _ Hne). cbn.
        split; [|done]. intros _. right. exists (CStr b). repeat split; congruence.
    + rewrite (bool_decide_true (CStr a <> CNull)) by done. cbn.
      split; [|done]. intros _. right. exists (CRef id). by repeat split.
    + split; [done|]. intros [|(c & [=] & _)]; done.
  - destruct (r !! target) as [[|b|id']|] eqn:Ht; cbn.
    + split; [done|]. intros [|(c & [= <-] & Hc & _)]; done.
    + rewrite (bool_decide_true (CRef id <> CNull)) by done. cbn.
      split; [|done]. intros _. right. exists (CStr b). by repeat split.
    + rewrite (bool_decide_true (CRef id <> CNull)) by done. cbn.
      destruct (decide (CRef id = CRef id')) as [Heq|Hne].
      * rewrite (bool_decide_true _ Heq). cbn.
        split; [done|]. intros [|(c & [= <-] & _ & Hc)]; [done|]. by destruct Hc.
      * rewrite (bool_decide_false _ Hne). cbn.
        split; [|done]. intros _. right. exists (CRef id'). repeat split; congruence.
    + split; [done|]. intros [|(c & [=] & _)]; done.
Qed.

Example differs_on_other_name :
  username_differs Sample.users "user" "uname" Sample.stale = true.
Proof. reflexivity. Qed.

Example differs_not_on_same_name :
  username_differs Sample.users "user" "uname" Sample.filled = false.
Proof. reflexivity. Qed.

Example differs_on_null_relation :
  username_differs Sample.users "user" "uname" Sample.anonymous = true.
Proof. reflexivity. Qed.

Example differs_not_on_null_target :
  username_differs (table_of Nullable.world0 User) "user" "uname" Nullable.post = false.
Proof. reflexivity. Qed.

Lemma joined_username_str (users : table) (source : string) (r u : row)
    (id : Z) (a : string) :
  r !! source = Some (CRef id) -> users !! id = Some u ->
  u !! "username" = Some (CStr a) ->
  joined_username users source r = CStr a.
Proof. intros Hs Hu Ha. unfold joined_username. by rewrite Hs, Hu, Ha. Qed.

(** A joined username that is not NULL comes from a user. *)
Lemma joined_username_inv (users : table) (source : string) (r : row) :
  joined_username users source r <> CNull ->
  exists (id : Z) (u : row),
    r !! source = Some (CRef id) /\ users !! id = Some u /\
    u !! "username" = Some (joined_username users source r).
Proof.
  unfold joined_username.
  destruct (r !! source) as [[| |id]|] eqn:Hs; try done.
  destruct (users !! id) as [u|] eqn:Hu; try done.
  destruct (u !! "username") as [c|] eqn:Hc; [|done].
  intros _. exists id, u. split; [done|]. split; [done|]. exact Hc.
Qed.




Lemma elem_of_qs_pks (w : world) (qs : queryset) (pk : Z) :
  pk ∈ qs_pks w qs <->
  exists r, table_of w (qs_model qs) !! pk = Some r /\
            reported (table_of w User) (qs_source qs) (qs_target qs) r.
Proof.
  unfold qs_pks. rewrite list_elem_of_fmap. split.
  - intros [[k r] [-> Hin]]. apply list_elem_of_filter in Hin as [Hf Hin].
    apply elem_of_map_to_list in Hin. exists r. split; [done|].
    by apply username_differs_reported.
  - intros [r [Hr Hf]]. exists (pk, r). split; [done|].
    apply list_elem_of_filter. split; [by apply username_differs_reported|].
    by apply elem_of_map_to_list.
Qed.


Lemma lint_split (w : world) (l1 l2 : list entry) (e : entry) :
  instances w = l1 ++ e :: l2 ->
  exec lint w =
  exec (for_each l2 lint_entry) (exec (lint_entry e) (exec (for_each l1 lint_entry) w)).
Proof.
  intros Hreg. unfold exec at 1. rewrite lint_run. simpl. rewrite Hreg.
  apply (for_each_split lint_entry lint_entry_total).
Qed.

Lemma lint_narrow_loop_trace (l : list entry) (w : world) :
  Forall (fun e : entry => e.2 < 30) l ->
  trace (exec (for_each l lint_entry) w) = trace w.
Proof.
  unfold exec. rewrite (for_each_total lint_entry lint_entry_total). simpl.
  intros Hall. revert w.
  induction Hall as [|[[[model source] target] ml] l Hml _ IH]; intros w;
    cbn [fold_left]; [done|].
  rewrite IH. unfold exec. by rewrite (lint_entry_narrow model source target ml w Hml).
Qed.




(** C5: when the loop of [lint] reaches a registry entry with
    [max_length < 30], it prints the one-line notice that the entry is not
    checked and moves on: no statement is sent to the database and no
    warning is printed for the entry. A registry made of such entries only
    leaves the trace of database statements untouched. *)
Theorem lint_skips_narrow (w : world) (l1 l2 : list entry)
    (model : model_class) (source target : string) (ml : Z) :
  instances w = l1 ++ (model, source, target, ml) :: l2 ->
  ml < 30 ->
  let w1 := exec (for_each l1 lint_entry) w in
  let w2 := exec (lint_entry (model, source, target, ml)) w1 in
  exec lint w = exec (for_each l2 lint_entry) w2 /\
  lint_entry (model, source, target, ml) w1 = (Ok tt, w2) /\
  trace w2 = trace w1 /\
  stdout w2 = stdout w1 ++ [Info model target] /\
  heap w2 = heap w1 /\ tables w2 = tables w1 /\
  (Forall (fun e : entry => e.2 < 30) (instances w) ->
   trace (exec lint w) = trace w).
Proof.
  intros Hreg Hml w1 w2.
  split; [by apply lint_split|].
  unfold w2, exec. rewrite (lint_entry_narrow model source target ml w1 Hml). simpl.
  repeat split; try done.
  intros Hall. rewrite lint_run. simpl. by apply lint_narrow_loop_trace.
Qed.

Lemma lint_skips_narrow_witness :
  lint_entry (Sample.Post, "user", "uname", 5) Sample.world0 =
  (Ok tt,
   {| heap := heap Sample.world0; tables := tables Sample.world0;
      instances := instances Sample.world0; trace := [];
      stdout := [Info Sample.Post "uname"] |}).
Proof.
  destruct (lint_skips_narrow Sample.world0 [] [(Sample.Post, "user", "uname", 30)]
              Sample.Post "user" "uname" 5 eq_refl ltac:(lia))
    as (_ & Hrun & _).
  exact Hrun.
Defined.

(** C7: attaching the field to an abstract model class leaves the registry
    as it was; attaching it to a concrete one appends exactly the entry
    [(cls, populate_from, name, max_length)] at the end. Every operation of
    the component leaves the old registry as a prefix of the new one, so no
    entry is ever removed, over any sequence of operations. *)
Theorem registry_append_only :
  (forall (self : UsernameField) (cls : model_class) (n : string) (w : world),
     instances (exec (contribute_to_class self cls n) w) =
       (if abstract cls then instances w
        else instances w ++ [(cls, populate_from self, n, max_length self)]) /\
     fst (contribute_to_class self cls n w) =
       Ok {| populate_from := populate_from self; max_length := max_length self;
             name := n |}) /\
  (forall (op : operation) (w : world),
     instances w `prefix_of` instances (run_operation op w)) /\
  (forall (ops : list operation) (w : world),
     instances w `prefix_of`
       instances (fold_left (fun w op => run_operation op w) ops w)).
Proof.
  assert (Hstep : forall (op : operation) (w : world),
            instances w `prefix_of` instances (run_operation op w)).
  { intros op w. destruct op as [? ? ?|self obj add|self cls n|uid nm|]; simpl.
    - done.
    - unfold exec. by rewrite keeps_pre_save.
    - unfold exec. rewrite contribute_to_class_run. simpl.
      destruct (abstract cls); [done|]. by apply prefix_app_r.
    - unfold exec. by rewrite rename_username_run.
    - unfold exec. rewrite lint_run. simpl.
      by destruct (lint_loop_frame (instances w) w) as (_ & _ & ->). }
  split; [|split; [exact Hstep|]].
  - intros self cls n w. unfold exec. by rewrite contribute_to_class_run.
  - intros ops. induction ops as [|op ops IH]; intros w; simpl; [done|].
    etrans; [apply Hstep | apply IH].
Qed.

(** * Further properties of the code *)

(** ** Slices *)

Lemma substring_length_min (s : string) (n : nat) :
  String.length (substring 0 n s) = Nat.min n (String.length s).
Proof.
  revert n. induction s as [|c s IH]; intros [|n]; simpl; try reflexivity.
  by rewrite IH.
Qed.

Lemma substring_prefix (s : string) (n : nat) :
  String.prefix (substring 0 n s) s = true.
Proof.
  revert n. induction s as [|c s IH]; intros [|n]; simpl; try reflexivity.
  destruct (Ascii.ascii_dec c c) as [_|Hne]; [apply IH | by destruct Hne].
Qed.

Lemma py_slice_to_prefix (s : string) (stop : Z) :
  String.prefix (py_slice_to s stop) s = true.
Proof. unfold py_slice_to. apply substring_prefix. Qed.

Lemma py_slice_to_length (s : string) (stop : Z) :
  Z.of_nat (String.length (py_slice_to s stop)) =
  if stop <? 0 then Z.max 0 (stop + Z.of_nat (String.length s))
  else Z.min stop (Z.of_nat (String.length s)).
Proof.
  unfold py_slice_to. rewrite substring_length_min.
  destruct (Z.ltb_spec stop 0); lia.
Qed.

(** The full run of [pre_save] on an empty target whose relation leads to a
    user with a string username. *)
Lemma pre_save_related_run (self : UsernameField) (obj : loc) (add : bool)
    (w : world) (d u : row) (id : Z) (uname : string) :
  heap w !! obj = Some d ->
  d !! name self = Some (CStr "") ->
  d !! populate_from self = Some (CRef id) ->
  table_of w User !! id = Some u ->
  u !! "username" = Some (CStr uname) ->
  pre_save self obj add w =
    (Ok (VStr (py_slice_to uname (max_length self))),
     {| heap := <[obj := <[name self := CStr (py_slice_to uname (max_length self))]> d]>
                  (heap w);
        tables := tables w; instances := instances w;
        trace := trace w ++ [Getattr obj (name self); Getattr obj (populate_from self);
                             Setattr obj (name self)
                               (VStr (py_slice_to uname (max_length self)));
                             Getattr obj (name self)];
        stdout := stdout w |}).
Proof.
  intros Hobj Hcur Hrel Hu Hname. unfold pre_save.
  rewrite (bind_ok _ _ _ _ _ (getattr_str _ _ _ _ _ Hobj Hcur)).
  rewrite decide_True by done.
  erewrite bind_ok;
    [| apply try_except_ok;
       apply (populate_block_related self obj _ d u id uname); done].
  erewrite getattr_str; [| simpl; apply lookup_insert_eq | apply lookup_insert_eq].
  f_equal. apply world_eq; simpl; try done. by rewrite <- !app_assoc.
Qed.

(** X1: the string [pre_save] stores is always a prefix of the related
    username; with a non-negative [max_length] it is never longer than
    [max_length] (and has exactly [min max_length len] characters), and with
    a negative [max_length] it is the username without its last
    [-max_length] characters. Nothing is rejected: an over-long username is
    cut, not refused. *)
Theorem pre_save_truncation_bound (self : UsernameField) (obj : loc) (add : bool)
    (w : world) (d u : row) (id : Z) (uname : string) :
  heap w !! obj = Some d ->
  d !! name self = Some (CStr "") ->
  d !! populate_from self = Some (CRef id) ->
  table_of w User !! id = Some u ->
  u !! "username" = Some (CStr uname) ->
  exists v : string,
    fst (pre_save self obj add w) = Ok (VStr v) /\
    (heap (exec (pre_save self obj add) w) !! obj) ≫= (fun d' => d' !! name self)
      = Some (CStr v) /\
    String.prefix v uname = true /\
    (0 <= max_length self ->
     Z.of_nat (String.length v) = Z.min (max_length self) (Z.of_nat (String.length uname))) /\
    (max_length self < 0 ->
     Z.of_nat (String.length v) =
       Z.max 0 (Z.of_nat (String.length uname) + max_length self)).
Proof.
  intros Hobj Hcur Hrel Hu Hname.
  exists (py_slice_to uname (max_length self)).
  unfold exec.
  rewrite (pre_save_related_run self obj add w d u id uname Hobj Hcur Hrel Hu Hname).
  simpl. rewrite lookup_insert_eq. simpl. rewrite lookup_insert_eq.
  split; [done|]. split; [done|]. split; [apply py_slice_to_prefix|].
  rewrite py_slice_to_length.
  split; intros H; destruct (Z.ltb_spec (max_length self) 0); lia.
Qed.

Lemma pre_save_truncation_bound_witness :
  exists v : string,
    fst (pre_save Sample.field 0%nat true Sample.world0) = Ok (VStr v) /\
    String.prefix v "alice_in_wonderland" = true /\
    Z.of_nat (String.length v) = 5.
Proof.
  destruct (pre_save_truncation_bound Sample.field 0%nat true Sample.world0
              Sample.fresh (<["username" := CStr "alice_in_wonderland"]> ∅) 7
              "alice_in_wonderland" eq_refl eq_refl eq_refl eq_refl eq_refl)
    as (v & Hres & _ & Hprefix & Hlen & _).
  exists v. split; [exact Hres|]. split; [exact Hprefix|].
  apply Hlen. cbn. lia.
Defined.

(** ** Frames of pre_save *)

Lemma only_sets_refl (obj : loc) (attr : string) (w : world) : only_sets obj attr w w.
Proof. unfold only_sets. repeat split; try done. by left. Qed.

Lemma only_sets_log (obj : loc) (attr : string) (e : event) (w : world) :
  only_sets obj attr w (log e w).
Proof. unfold only_sets. repeat split; try done. by left. Qed.

Lemma only_sets_trans (obj : loc) (attr : string) (w1 w2 w3 : world) :
  only_sets obj attr w1 w2 -> only_sets obj attr w2 w3 -> only_sets obj attr w1 w3.
Proof.
  intros (Ht1 & Hi1 & Hs1 & Ho1 & Hobj1) (Ht2 & Hi2 & Hs2 & Ho2 & Hobj2).
  unfold only_sets. repeat split; try congruence.
  - intros l Hl. rewrite Ho2, Ho1; done.
  - destruct Hobj2 as [Heq2|(d2 & c2 & Hd2 & Hd2')].
    + rewrite Heq2. exact Hobj1.
    + right. destruct Hobj1 as [Heq1|(d1 & c1 & Hd1 & Hd1')].
      * exists d2, c2. split; congruence.
      * exists d1, c2. split; [done|]. rewrite Hd2'.
        rewrite Hd1' in Hd2. injection Hd2 as <-. by rewrite insert_insert_eq.
Qed.

Section WritesOnly.
Context {A B : Type} (obj : loc) (attr : string).

Lemma writes_ret (a : A) : writes_only obj attr (ret a).
Proof. intros w. apply only_sets_refl. Qed.

Lemma writes_raise (e : exn) : writes_only obj attr (@raise A e).
Proof. intros w. apply only_sets_refl. Qed.

Lemma writes_bind (m : Py A) (k : A -> Py B) :
  writes_only obj attr m -> (forall a, writes_only obj attr (k a)) ->
  writes_only obj attr (m ≫= k).
Proof.
  intros Hm Hk w. unfold mbind, Py_bind, bind.
  specialize (Hm w). destruct (m w) as [[a|e] w']; cbn [snd] in *; [|done].
  eapply only_sets_trans; [exact Hm | apply Hk].
Qed.
End WritesOnly.

Lemma writes_try_except (obj : loc) (attr : string) (body handler : Py unit)
    (caught : exn) :
  writes_only obj attr body -> writes_only obj attr handler ->
  writes_only obj attr (try_except body caught handler).
Proof.
  intros Hb Hh w. unfold try_except.
  specialize (Hb w). destruct (body w) as [[a|e] w']; cbn [snd] in *; [done|].
  destruct (decide (e = caught)); [|done].
  eapply only_sets_trans; [exact Hb | apply Hh].
Qed.

Lemma writes_resolve (obj : loc) (attr : string) (c : cell) :
  writes_only obj attr (resolve c).
Proof. intros w. rewrite resolve_world. apply only_sets_refl. Qed.

Lemma writes_getattr (obj : loc) (attr : string) (o : loc) (a : string) :
  writes_only obj attr (getattr o a).
Proof. intros w. rewrite getattr_world. apply only_sets_log. Qed.

Lemma writes_setattr (obj : loc) (attr : string) (v : pyval) :
  writes_only obj attr (setattr obj attr v).
Proof.
  intros w. unfold setattr.
  destruct (heap w !! obj) as [d|] eqn:Hobj; cbn [snd]; [|apply only_sets_log].
  unfold only_sets. cbn [heap tables instances stdout log].
  repeat split; try done.
  - intros l Hl. by rewrite lookup_insert_ne.
  - right. exists d, (to_cell v). split; [done|]. apply lookup_insert_eq.
Qed.

Lemma writes_getfield (obj : loc) (attr : string) (v : pyval) (a : string) :
  writes_only obj attr (getfield v a).
Proof.
  destruct v as [| |pk u]; cbn [getfield]; try apply writes_raise.
  destruct (u !! a); [apply writes_resolve | apply writes_raise].
Qed.

Lemma writes_slice_to (obj : loc) (attr : string) (v : pyval) (stop : Z) :
  writes_only obj attr (slice_to v stop).
Proof. destruct v; cbn [slice_to]; first [apply writes_raise | apply writes_ret]. Qed.

Lemma writes_pre_save (self : UsernameField) (obj : loc) (add : bool) :
  writes_only obj (name self) (pre_save self obj add).
Proof.
  unfold pre_save.
  apply writes_bind; [apply writes_getattr|]. intros cur.
  apply writes_bind; [|intros _; apply writes_getattr].
  destruct (decide (cur = VStr "")); [|apply writes_ret].
  apply writes_try_except; [|apply writes_ret].
  apply writes_bind; [apply writes_getattr|]. intros user.
  assert (Hfill : writes_only obj (name self)
            (u ← getfield user "username";
             s ← slice_to u (max_length self);
             setattr obj (name self) s)).
  { apply writes_bind; [apply writes_getfield|]. intros u.
    apply writes_bind; [apply writes_slice_to|]. intros s. apply writes_setattr. }
  destruct user; [apply writes_setattr | exact Hfill | exact Hfill].
Qed.

(** X2: whatever the outcome of [pre_save] (a value or an exception), it
    leaves the database, the registry and the output alone, touches no other
    instance, keeps the instance it was given, and changes no attribute of
    that instance other than the field's own. *)
Theorem pre_save_frame (self : UsernameField) (obj : loc) (add : bool) (w : world) :
  let w' := exec (pre_save self obj add) w in
  tables w' = tables w /\ instances w' = instances w /\ stdout w' = stdout w /\
  (forall l, l <> obj -> heap w' !! l = heap w !! l) /\
  (is_Some (heap w' !! obj) <-> is_Some (heap w !! obj)) /\
  (forall a, a <> name self ->
     heap w' !! obj ≫= (fun d => d !! a) = heap w !! obj ≫= (fun d => d !! a)).
Proof.
  intros w'. destruct (writes_pre_save self obj add w) as (Ht & Hi & Hs & Ho & Hobj).
  fold (exec (pre_save self obj add) w) in *. fold w' in Ht, Hi, Hs, Ho, Hobj.
  repeat split; try done.
  - destruct Hobj as [->|(d & c & -> & ->)]; [done|]. by eexists.
  - destruct Hobj as [->|(d & c & -> & ->)]; [done|]. by eexists.
  - intros a Ha. destruct Hobj as [->|(d & c & -> & ->)]; [done|].
    cbn. by rewrite lookup_insert_ne.
Qed.

Lemma pre_save_frame_witness :
  heap (exec (pre_save Sample.field 0%nat true) Sample.world0) !! 3%nat =
  heap Sample.world0 !! 3%nat.
Proof.
  destruct (pre_save_frame Sample.field 0%nat true Sample.world0)
    as (_ & _ & _ & Hother & _).
  apply Hother. discriminate.
Defined.

(** ** Idempotence of pre_save *)

Lemma same_store_refl (w : world) : same_store w w.
Proof. by split. Qed.

Lemma same_store_log_l (e : event) (w1 w2 : world) :
  same_store w1 w2 -> same_store (log e w1) w2.
Proof. by intros [? ?]. Qed.

Lemma same_store_log (e1 e2 : event) (w1 w2 : world) :
  same_store w1 w2 -> same_store (log e1 w1) (log e2 w2).
Proof. by intros [? ?]. Qed.

Section StoreDetermined.
Context {A B : Type}.

Lemma determined_ret (a : A) : store_determined (ret a).
Proof. by intros w1 w2 H. Qed.

Lemma determined_raise (e : exn) : store_determined (@raise A e).
Proof. by intros w1 w2 H. Qed.

Lemma determined_bind (m : Py A) (k : A -> Py B) :
  store_determined m -> (forall a, store_determined (k a)) ->
  store_determined (m ≫= k).
Proof.
  intros Hm Hk w1 w2 H. unfold mbind, Py_bind, bind.
  destruct (Hm w1 w2 H) as [Hr Hs].
  destruct (m w1) as [[a1|e1] w1'], (m w2) as [[a2|e2] w2']; cbn [fst snd] in *;
    try discriminate.
  - injection Hr as ->. by apply Hk.
  - injection Hr as ->. by split.
Qed.
End StoreDetermined.

Lemma determined_try_except (body handler : Py unit) (caught : exn) :
  store_determined body -> store_determined handler ->
  store_determined (try_except body caught handler).
Proof.
  intros Hb Hh w1 w2 H. unfold try_except.
  destruct (Hb w1 w2 H) as [Hr Hs].
  destruct (body w1) as [[a1|e1] w1'], (body w2) as [[a2|e2] w2']; cbn [fst snd] in *;
    try discriminate.
  - by split.
  - injection Hr as ->. destruct (decide (e2 = caught)); [by apply Hh | by split].
Qed.

Lemma determined_resolve (c : cell) : store_determined (resolve c).
Proof.
  intros w1 w2 [Hh Ht]. unfold resolve, table_of. destruct c; try by split.
  rewrite Ht. by destruct (default ∅ (tables w2 !! model_name User) !! id).
Qed.

Lemma determined_getattr (obj : loc) (attr : string) : store_determined (getattr obj attr).
Proof.
  intros w1 w2 H. unfold getattr. destruct H as [Hh Ht]. rewrite Hh.
  destruct (heap w2 !! obj) as [d|]; [|by split].
  destruct (d !! attr) as [c|]; [|by split].
  apply determined_resolve. by split.
Qed.

Lemma determined_setattr (obj : loc) (attr : string) (v : pyval) :
  store_determined (setattr obj attr v).
Proof.
  intros w1 w2 [Hh Ht]. unfold setattr. rewrite Hh.
  destruct (heap w2 !! obj) as [d|]; [|by split].
  split; [done|]. split; cbn [heap tables log snd]; congruence.
Qed.

Lemma determined_getfield (v : pyval) (attr : string) : store_determined (getfield v attr).
Proof.
  destruct v as [| |pk u]; cbn [getfield]; try apply determined_raise.
  destruct (u !! attr); [apply determined_resolve | apply determined_raise].
Qed.

Lemma determined_slice_to (v : pyval) (stop : Z) : store_determined (slice_to v stop).
Proof. destruct v; cbn [slice_to]; first [apply determined_raise | apply determined_ret]. Qed.

Lemma determined_pre_save (self : UsernameField) (obj : loc) (add : bool) :
  store_determined (pre_save self obj add).
Proof.
  unfold pre_save.
  apply determined_bind; [apply determined_getattr|]. intros cur.
  apply determined_bind; [|intros _; apply determined_getattr].
  destruct (decide (cur = VStr "")); [|apply determined_ret].
  apply determined_try_except; [|apply determined_ret].
  apply determined_bind; [apply determined_getattr|]. intros user.
  assert (Hfill : store_determined
            (u ← getfield user "username";
             s ← slice_to u (max_length self);
             setattr obj (name self) s)).
  { apply determined_bind; [apply determined_getfield|]. intros u.
    apply determined_bind; [apply determined_slice_to|]. intros s.
    apply determined_setattr. }
  destruct user; [apply determined_setattr | exact Hfill | exact Hfill].
Qed.

Lemma getattr_str_inv (obj : loc) (attr : string) (w : world) (s : string) :
  fst (getattr obj attr w) = Ok (VStr s) ->
  exists d, heap w !! obj = Some d /\ d !! attr = Some (CStr s).
Proof.
  unfold getattr. destruct (heap w !! obj) as [d|]; [|done].
  destruct (d !! attr) as [c|] eqn:Hc; [|done].
  unfold resolve. destruct c as [|s'|id]; cbn [fst]; try done.
  - intros [= ->]. by exists d.
  - destruct (table_of _ User !! id); done.
Qed.

Lemma getattr_run (obj : loc) (attr : string) (w : world) :
  getattr obj attr w = (fst (getattr obj attr w), log (Getattr obj attr) w).
Proof. rewrite <- getattr_world. apply surjective_pairing. Qed.

Lemma resolve_run (c : cell) (w : world) : resolve c w = (fst (resolve c w), w).
Proof. rewrite <- (resolve_world c w) at 3. apply surjective_pairing. Qed.

Lemma try_except_pass_world (body : Py unit) (caught : exn) (w w' : world)
    (r : result unit) :
  body w = (r, w') -> snd (try_except body caught (ret tt) w) = w'.
Proof.
  intros H. unfold try_except. rewrite H. destruct r as [a|e]; [done|].
  by destruct (decide (e = caught)).
Qed.

(** The assignments of [pre_save]: on an instance whose target is empty, the
    guarded statements either leave the instances as they are or end
    normally having stored a non-empty string under the target. *)
Lemma populate_block_effect (self : UsernameField) (obj : loc) (w : world) (d : row) :
  heap w !! obj = Some d ->
  d !! name self = Some (CStr "") ->
  exists (r : result unit) (w' : world),
    (user ← getattr obj (populate_from self);
     match user with
     | VNone => setattr obj (name self) (VStr "")
     | _ =>
         u0 ← getfield user "username";
         s ← slice_to u0 (max_length self);
         setattr obj (name self) s
     end) w = (r, w') /\
    (heap w' = heap w \/
     exists v : string,
       v <> "" /\ r = Ok tt /\ heap w' = <[obj := <[name self := CStr v]> d]> (heap w)).
Proof.
  intros Hobj Hcur.
  assert (Hsame : <[obj := <[name self := CStr ""]> d]> (heap w) = heap w).
  { apply insert_id. rewrite Hobj. f_equal. symmetry. by apply insert_id. }
  pose proof (getattr_run obj (populate_from self) w) as G.
  destruct (fst (getattr obj (populate_from self) w)) as [user|e].
  2: { rewrite (bind_raise _ _ _ _ _ G). eexists _, _. split; [done|]. by left. }
  rewrite (bind_ok _ _ _ _ _ G).
  set (w1 := log (Getattr obj (populate_from self)) w).
  assert (Hobj1 : heap w1 !! obj = Some d) by exact Hobj.
  destruct user as [|s|pk u].
  - rewrite (setattr_found _ _ _ _ d Hobj1). eexists _, _. split; [done|].
    left. exact Hsame.
  - eexists _, _. split; [done|]. by left.
  - unfold getfield. destruct (u !! "username") as [c|].
    2: { eexists _, _. split; [done|]. by left. }
    pose proof (resolve_run c w1) as R.
    destruct (fst (resolve c w1)) as [uv|e].
    2: { rewrite (bind_raise _ _ _ _ _ R). eexists _, _. split; [done|]. by left. }
    rewrite (bind_ok _ _ _ _ _ R).
    destruct uv as [|uname|pk' u'].
    + eexists _, _. split; [done|]. by left.
    + rewrite (bind_ok _ _ _ _ _ (slice_to_str uname (max_length self) w1)).
      rewrite (setattr_found _ _ _ _ d Hobj1). eexists _, _. split; [done|].
      cbn [heap to_cell].
      destruct (decide (py_slice_to uname (max_length self) = "")) as [->|Hne].
      * left. exact Hsame.
      * right. by exists (py_slice_to uname (max_length self)).
    + eexists _, _. split; [done|]. by left.
Qed.

Lemma guarded_block_effect (self : UsernameField) (obj : loc) (w : world) (d : row) :
  heap w !! obj = Some d ->
  d !! name self = Some (CStr "") ->
  exists (r : result unit) (w' : world),
    try_except
      (user ← getattr obj (populate_from self);
       match user with
       | VNone => setattr obj (name self) (VStr "")
       | _ =>
           u0 ← getfield user "username";
           s ← slice_to u0 (max_length self);
           setattr obj (name self) s
       end) ObjectDoesNotExist (ret tt) w = (r, w') /\
    (heap w' = heap w \/
     exists v : string,
       v <> "" /\ r = Ok tt /\ heap w' = <[obj := <[name self := CStr v]> d]> (heap w)).
Proof.
  intros Hobj Hcur.
  destruct (populate_block_effect self obj w d Hobj Hcur) as (r & w' & Hbody & Heff).
  destruct r as [[]|e].
  - exists (Ok tt), w'. split; [by apply try_except_ok | exact Heff].
  - destruct Heff as [Hheap|(v & _ & [=] & _)].
    unfold try_except. rewrite Hbody.
    destruct (decide (e = ObjectDoesNotExist)); eexists _, _; (split; [done|by left]).
Qed.

Lemma pre_save_effect (self : UsernameField) (obj : loc) (add : bool) (w : world) :
  heap (exec (pre_save self obj add) w) = heap w \/
  exists v : string,
    v <> "" /\ fst (pre_save self obj add w) = Ok (VStr v) /\
    fst (getattr obj (name self) (exec (pre_save self obj add) w)) = Ok (VStr v).
Proof.
  pose proof (getattr_run obj (name self) w) as G.
  destruct (fst (getattr obj (name self) w)) as [cur|e] eqn:Hcur.
  2: { left. unfold exec, pre_save. by rewrite (bind_raise _ _ _ _ _ G). }
  destruct (decide (cur = VStr "")) as [->|Hne].
  2: { left. unfold exec. by rewrite (pre_save_skips self obj add w cur Hcur Hne). }
  destruct (getattr_str_inv _ _ _ _ Hcur) as (d & Hobj & Htarget).
  destruct (guarded_block_effect self obj (log (Getattr obj (name self)) w) d
              Hobj Htarget) as (r & wb & Hblock & Heff).
  unfold exec, pre_save. rewrite (bind_ok _ _ _ _ _ G). rewrite decide_True by done.
  destruct Heff as [Hheap|(v & Hv & -> & Hheap)].
  - left. destruct r as [[]|e].
    + rewrite (bind_ok _ _ _ _ _ Hblock). rewrite getattr_world. exact Hheap.
    + rewrite (bind_raise _ _ _ _ _ Hblock). exact Hheap.
  - right. exists v. split; [done|].
    rewrite (bind_ok _ _ _ _ _ Hblock).
    assert (Hread : forall w2, heap w2 = heap wb ->
              fst (getattr obj (name self) w2) = Ok (VStr v)).
    { intros w2 Hw2. erewrite getattr_str; [done| |apply lookup_insert_eq].
      rewrite Hw2, Hheap. apply lookup_insert_eq. }
    split; [by apply Hread|]. apply Hread. by rewrite getattr_world.
Qed.

(** X3: [pre_save] is idempotent in every case, not only when the target is
    already set: a second call returns what the first returned (the same
    value or the same exception) and leaves the instances exactly as the
    first left them. *)
Theorem pre_save_twice (self : UsernameField) (obj : loc) (add add' : bool) (w : world) :
  let w1 := exec (pre_save self obj add) w in
  fst (pre_save self obj add' w1) = fst (pre_save self obj add w) /\
  heap (exec (pre_save self obj add') w1) = heap w1 /\
  tables (exec (pre_save self obj add') w1) = tables w.
Proof.
  intros w1.
  assert (Htab : forall a w0, tables (exec (pre_save self obj a) w0) = tables w0).
  { intros a w0. by destruct (writes_pre_save self obj a w0) as (? & _). }
  assert (Hadd : forall w0, pre_save self obj add' w0 = pre_save self obj add w0) by done.
  split; [|split].
  - destruct (pre_save_effect self obj add w) as [Hheap|(v & Hv & Hres & Hread)].
    + rewrite Hadd.
      apply (determined_pre_save self obj add w1 w). split; [exact Hheap | apply Htab].
    + rewrite Hres. fold w1 in Hread.
      by rewrite (pre_save_skips self obj add' w1 (VStr v) Hread) by congruence.
  - destruct (pre_save_effect self obj add w) as [Hheap|(v & Hv & Hres & Hread)].
    + unfold exec at 1. rewrite Hadd.
      destruct (determined_pre_save self obj add w1 w) as [_ [Hh _]];
        [split; [exact Hheap | apply Htab]|].
      fold (exec (pre_save self obj add) w) in Hh. fold w1 in Hh. done.
    + fold w1 in Hread. unfold exec at 1.
      by rewrite (pre_save_skips self obj add' w1 (VStr v) Hread) by congruence.
  - rewrite Htab. apply Htab.
Qed.

Lemma pre_save_twice_witness :
  fst (pre_save Sample.field 0%nat false
         (exec (pre_save Sample.field 0%nat true) Sample.world0)) =
  fst (pre_save Sample.field 0%nat true Sample.world0).
Proof. apply (pre_save_twice Sample.field 0%nat true false Sample.world0). Defined.

(** ** Exceptions of pre_save *)

Lemma getattr_missing (obj : loc) (attr : string) (w : world) (d : row) :
  heap w !! obj = Some d -> d !! attr = None ->
  getattr obj attr w = (Raise AttributeError, log (Getattr obj attr) w).
Proof. intros Hobj Hattr. unfold getattr. by rewrite Hobj, Hattr. Qed.

Lemma try_except_escapes (body handler : Py unit) (caught e : exn) (w w' : world) :
  e <> caught ->
  body w = (Raise e, w') -> try_except body caught handler w = (Raise e, w').
Proof. intros Hne H. unfold try_except. rewrite H. by rewrite decide_False. Qed.

(** X4: only [ObjectDoesNotExist] is swallowed. When the target is empty and
    the instance has no attribute named [populate_from], the
    [AttributeError] of the lookup leaves [pre_save]: nothing is assigned
    and the target is not read again. *)
Theorem pre_save_missing_relation (self : UsernameField) (obj : loc) (add : bool)
    (w : world) (d : row) :
  heap w !! obj = Some d ->
  d !! name self = Some (CStr "") ->
  d !! populate_from self = None ->
  pre_save self obj add w =
    (Raise AttributeError,
     {| heap := heap w; tables := tables w; instances := instances w;
        trace := trace w ++ [Getattr obj (name self); Getattr obj (populate_from self)];
        stdout := stdout w |}).
Proof.
  intros Hobj Hcur Hrel. unfold pre_save.
  rewrite (bind_ok _ _ _ _ _ (getattr_str _ _ _ _ _ Hobj Hcur)).
  rewrite decide_True by done.
  erewrite bind_raise;
    [| eapply try_except_escapes;
       [| apply bind_raise;
          apply (getattr_missing obj (populate_from self) _ d); done];
       done].
  f_equal. apply world_eq; cbn [heap tables instances trace stdout log]; try done.
  by rewrite <- app_assoc.
Qed.

Lemma pre_save_missing_relation_witness :
  pre_save Blog.field 2%nat true Blog.world0 =
    (Raise AttributeError,
     {| heap := heap Blog.world0; tables := tables Blog.world0;
        instances := instances Blog.world0;
        trace := [Getattr 2%nat "uname"; Getattr 2%nat "user"];
        stdout := [] |}).
Proof.
  apply (pre_save_missing_relation Blog.field 2%nat true Blog.world0 Blog.broken);
    reflexivity.
Defined.

(** X5: a related record whose [username] is [None] cannot be sliced: the
    [TypeError] leaves [pre_save] (it is not the swallowed exception) and
    the target keeps its empty value. *)
Theorem pre_save_username_none (self : UsernameField) (obj : loc) (add : bool)
    (w : world) (d u : row) (id : Z) :
  heap w !! obj = Some d ->
  d !! name self = Some (CStr "") ->
  d !! populate_from self = Some (CRef id) ->
  table_of w User !! id = Some u ->
  u !! "username" = Some CNull ->
  pre_save self obj add w =
    (Raise TypeError,
     {| heap := heap w; tables := tables w; instances := instances w;
        trace := trace w ++ [Getattr obj (name self); Getattr obj (populate_from self)];
        stdout := stdout w |}).
Proof.
  intros Hobj Hcur Hrel Hu Hname. unfold pre_save.
  rewrite (bind_ok _ _ _ _ _ (getattr_str _ _ _ _ _ Hobj Hcur)).
  rewrite decide_True by done.
  assert (Hf : forall w0, getfield (VObj id u) "username" w0 = (Ok VNone, w0)).
  { intros w0. unfold getfield. by rewrite Hname. }
  erewrite bind_raise;
    [| eapply try_except_escapes;
       [| rewrite (bind_ok _ _ _ _ _
                     (getattr_related obj (populate_from self)
                        (log (Getattr obj (name self)) w) d u id Hobj Hrel Hu));
          rewrite (bind_ok _ _ _ _ _
                     (Hf (log (Getattr obj (populate_from self))
                            (log (Getattr obj (name self)) w))));
          reflexivity];
       done].
  f_equal. apply world_eq; cbn [heap tables instances trace stdout log]; try done.
  by rewrite <- app_assoc.
Qed.

Lemma pre_save_username_none_witness :
  pre_save Blog.field 3%nat true Blog.world0 =
    (Raise TypeError,
     {| heap := heap Blog.world0; tables := tables Blog.world0;
        instances := instances Blog.world0;
        trace := [Getattr 3%nat "uname"; Getattr 3%nat "user"];
        stdout := [] |}).
Proof.
  apply (pre_save_username_none Blog.field 3%nat true Blog.world0 Blog.nameless
           (<["username" := CNull]> ∅) 9); reflexivity.
Defined.

(** ** pre_save against the criterion of lint *)

(** X6: after [pre_save] has filled an empty target from a user, the
    instance satisfies the comparison [lint] makes exactly when nothing was
    cut: it matches, and the filter of the query does not select it, when
    the username is no longer than [max_length]; it is a mismatched row,
    and the filter selects it, when [0 <= max_length] is smaller than the
    username's length. *)
Theorem pre_save_then_lint_criterion (self : UsernameField) (obj : loc) (add : bool)
    (w : world) (d u : row) (id : Z) (uname : string) :
  heap w !! obj = Some d ->
  d !! name self = Some (CStr "") ->
  d !! populate_from self = Some (CRef id) ->
  table_of w User !! id = Some u ->
  u !! "username" = Some (CStr uname) ->
  exists d' : row,
    heap (exec (pre_save self obj add) w) !! obj = Some d' /\
    (Z.of_nat (String.length uname) <= max_length self ->
     username_matches (table_of w User) (populate_from self) (name self) d' = true) /\
    (0 <= max_length self < Z.of_nat (String.length uname) ->
     mismatched (table_of w User) (populate_from self) (name self) d') /\
    (Z.of_nat (String.length uname) <= max_length self ->
     username_differs (table_of w User) (populate_from self) (name self) d' = false) /\
    (0 <= max_length self < Z.of_nat (String.length uname) ->
     username_differs (table_of w User) (populate_from self) (name self) d' = true).
Proof.
  intros Hobj Hcur Hrel Hu Hname.
  assert (Hne : name self <> populate_from self) by congruence.
  eexists. unfold exec.
  rewrite (pre_save_related_run self obj add w d u id uname Hobj Hcur Hrel Hu Hname).
  cbn [snd heap]. split; [apply lookup_insert_eq|].
  assert (Hm : forall v,
    username_matches (table_of w User) (populate_from self) (name self)
      (<[name self := CStr v]> d) = bool_decide (uname = v)).
  { intros v. unfold username_matches.
    rewrite lookup_insert_ne by done. rewrite Hrel, Hu, Hname.
    by rewrite lookup_insert_eq. }
  assert (Hj : forall v,
    joined_username (table_of w User) (populate_from self)
      (<[name self := CStr v]> d) = CStr uname).
  { intros v. apply (joined_username_str _ _ _ u id); [|done|done].
    by rewrite lookup_insert_ne. }
  assert (Hcut : 0 <= max_length self < Z.of_nat (String.length uname) ->
                 py_slice_to uname (max_length self) <> uname).
  { intros Hlen Heq.
    pose proof (py_slice_to_length uname (max_length self)) as Hl.
    rewrite Heq in Hl. destruct (Z.ltb_spec (max_length self) 0); lia. }
  split; [|split; [|split]].
  - intros Hlen. rewrite Hm. apply bool_decide_eq_true.
    symmetry. by apply py_slice_to_short.
  - intros Hlen. apply username_matches_false. rewrite Hm.
    apply bool_decide_eq_false. intros Heq. by apply (Hcut Hlen).
  - intros Hlen.
    destruct (username_differs _ _ _ _) eqn:Hd; [|done].
    apply username_differs_reported in Hd. unfold reported in Hd. rewrite Hj in Hd.
    destruct Hd as [|(c & Hc & _ & Hcne)]; [done|].
    rewrite lookup_insert_eq in Hc. injection Hc as <-.
    by rewrite py_slice_to_short in Hcne.
  - intros Hlen. apply username_differs_reported. right.
    exists (CStr (py_slice_to uname (max_length self))).
    split; [apply lookup_insert_eq|]. split; [done|]. rewrite Hj.
    intros [= Heq]. by apply (Hcut Hlen).
Qed.

Lemma pre_save_then_lint_criterion_witness :
  exists d' : row,
    heap (exec (pre_save Sample.field 0%nat true) Sample.world0) !! 0%nat = Some d' /\
    mismatched (table_of Sample.world0 User) "user" "uname" d'.
Proof.
  destruct (pre_save_then_lint_criterion Sample.field 0%nat true Sample.world0
              Sample.fresh (<["username" := CStr "alice_in_wonderland"]> ∅) 7
              "alice_in_wonderland" eq_refl eq_refl eq_refl eq_refl eq_refl)
    as (d' & Hd' & _ & Hcut & _).
  exists d'. split; [exact Hd'|]. apply Hcut. cbn. lia.
Defined.

(** ** The database under rename_username *)

Lemma apply_update_row (m : model_class) (flt : lookup) (col v : string)
    (db : gmap string table) (n : string) (pk : Z) :
  default ∅ (apply_update m flt col v db !! n) !! pk =
  if decide (n = model_name m)
  then (fun r => if row_matches flt pk r then <[col := CStr v]> r else r)
         <$> default ∅ (db !! n) !! pk
  else default ∅ (db !! n) !! pk.
Proof.
  rewrite apply_update_table. destruct (decide (n = model_name m)); [|done].
  apply update_rows_lookup.
Qed.

(** A column that no statement of [evs] assigns in table [n] keeps its
    value in every row. *)
Lemma apply_events_column (evs : list event) (db : gmap string table)
    (n c : string) (pk : Z) (r : row) :
  (forall m flt col v, Update m flt col v ∈ evs -> ~ (model_name m = n /\ col = c)) ->
  default ∅ (db !! n) !! pk = Some r ->
  exists r', default ∅ (fold_left (fun db ev => apply_event ev db) evs db !! n) !! pk
               = Some r' /\ r' !! c = r !! c.
Proof.
  revert db r. induction evs as [|ev evs IH]; intros db r Hcols Hr; cbn [fold_left].
  { by exists r. }
  assert (Hstep : exists r1, default ∅ (apply_event ev db !! n) !! pk = Some r1 /\
                             r1 !! c = r !! c).
  { destruct ev as [| |m flt col v| |]; cbn [apply_event]; try by exists r.
    rewrite apply_update_row. destruct (decide (n = model_name m)) as [->|]; [|by exists r].
    rewrite Hr. cbn. destruct (row_matches flt pk r); [|by exists r].
    eexists. split; [done|]. apply lookup_insert_ne. intros ->.
    apply (Hcols m flt c v); [left | done]. }
  destruct Hstep as (r1 & Hr1 & Hc1).
  destruct (IH (apply_event ev db) r1) as (r' & Hr' & Hc'); [|done|].
  { intros m flt col v Hin. apply (Hcols m flt col v). by right. }
  exists r'. split; [done|]. congruence.
Qed.

Lemma elem_of_rename_stmts (user_id : Z) (username : string) (l : list entry)
    (m : model_class) (flt : lookup) (col v : string) :
  Update m flt col v ∈ map (update_of user_id username) l ++
                        [Update User (ByPk user_id) "username" username] ->
  (exists source max_length,
     (m, source, col, max_length) ∈ l /\ flt = ByField source user_id /\
     v = py_slice_to username max_length) \/
  (m = User /\ flt = ByPk user_id /\ col = "username" /\ v = username).
Proof.
  rewrite elem_of_app. intros [Hin|Hin].
  - left. apply list_elem_of_fmap in Hin as ([[[m' s'] t'] l'] & Heq & Hin).
    cbn in Heq. injection Heq as -> -> -> ->. eauto.
  - right. apply list_elem_of_singleton in Hin. by injection Hin as -> -> -> ->.
Qed.

(** X7: [rename_username] leaves the in-memory instances, the registry and
    the output alone, and the statements it sends, applied up to any point
    of the sequence (so also when a statement is refused and the rest never
    run), never create or delete a row of any table and change no column
    other than the registered target columns and the [username] of the user
    table. *)
Theorem rename_username_frame (user_id : Z) (username : string) (w : world) :
  let w' := exec (rename_username user_id username) w in
  let stmts := map (update_of user_id username) (instances w) ++
               [Update User (ByPk user_id) "username" username] in
  heap w' = heap w /\ instances w' = instances w /\ stdout w' = stdout w /\
  trace w' = trace w ++ stmts /\
  tables w' = fold_left (fun db ev => apply_event ev db) stmts (tables w) /\
  forall k : nat,
    let db := fold_left (fun db ev => apply_event ev db) (take k stmts) (tables w) in
    (forall n pk,
       is_Some (default ∅ (db !! n) !! pk) <->
       is_Some (default ∅ (tables w !! n) !! pk)) /\
    (forall n pk r c,
       default ∅ (tables w !! n) !! pk = Some r ->
       (forall model source target max_length,
          (model, source, target, max_length) ∈ instances w ->
          ~ (model_name model = n /\ target = c)) ->
       ~ (n = "User" /\ c = "username") ->
       exists r', default ∅ (db !! n) !! pk = Some r' /\ r' !! c = r !! c).
Proof.
  intros w' stmts. unfold w', exec. rewrite rename_username_run.
  cbn [snd heap tables instances trace stdout].
  repeat split; try done.
  - by apply apply_events_rows.
  - by apply apply_events_rows.
  - intros n pk r c Hr Hreg Huser. apply apply_events_column; [|done].
    intros m flt col v Hin [Hn Hc].
    apply subseteq_take in Hin.
    apply elem_of_rename_stmts in Hin
      as [(source & ml & Hin & _ & _)|(-> & _ & -> & _)].
    + by apply (Hreg m source col ml).
    + apply Huser. by subst.
Qed.

Lemma rename_username_frame_witness :
  exists r',
    default ∅
      (fold_left (fun db ev => apply_event ev db)
         (take 1 (map (update_of 8 "robert") (instances Blog.world0) ++
                  [Update User (ByPk 8) "username" "robert"]))
         (tables Blog.world0) !! "Post") !! 2 = Some r' /\
    r' !! "user" = Some (CRef 8).
Proof.
  destruct (rename_username_frame 8 "robert" Blog.world0)
    as (_ & _ & _ & _ & _ & Hprefix).
  destruct (Hprefix 1%nat) as [_ Hcol].
  apply (Hcol "Post" 2 Blog.post_by_bob "user"); [reflexivity | | ].
  - intros model source target ml Hin [_ ->].
    apply list_elem_of_In in Hin. cbn in Hin.
    destruct Hin as [[=]|[[=]|[]]].
  - intros [[=] _].
Defined.

Lemma apply_events_copy (evs : list event) (db : gmap string table)
    (n source target v : string) (user_id pk : Z) (r : row) :
  (forall m flt col x, Update m flt col x ∈ evs -> model_name m = n -> col <> source) ->
  (forall m flt col x, Update m flt col x ∈ evs -> model_name m = n -> col = target ->
     flt = ByField source user_id /\ x = v) ->
  default ∅ (db !! n) !! pk = Some r ->
  exists r',
    default ∅ (fold_left (fun db ev => apply_event ev db) evs db !! n) !! pk = Some r' /\
    r' !! source = r !! source /\
    (r !! source <> Some (CRef user_id) -> r' !! target = r !! target) /\
    (r' !! target = r !! target \/ r' !! target = Some (CStr v)) /\
    (r !! source = Some (CRef user_id) ->
     (exists m flt x, Update m flt target x ∈ evs /\ model_name m = n) ->
     r' !! target = Some (CStr v)).
Proof.
  revert db r. induction evs as [|ev evs IH]; intros db r Hsrc Htgt Hr; cbn [fold_left].
  { exists r. repeat split; try done; [by left|].
    intros _ (m & flt & x & Hin & _). by apply not_elem_of_nil in Hin. }
  assert (Hstep : exists r1,
    default ∅ (apply_event ev db !! n) !! pk = Some r1 /\
    r1 !! source = r !! source /\
    (r !! source <> Some (CRef user_id) -> r1 !! target = r !! target) /\
    (r1 !! target = r !! target \/ r1 !! target = Some (CStr v)) /\
    (r !! source = Some (CRef user_id) ->
     (exists m flt x, ev = Update m flt target x /\ model_name m = n) ->
     r1 !! target = Some (CStr v))).
  { assert (Hkeep : exists r1,
      Some r = Some r1 /\ r1 !! source = r !! source /\
      (r !! source <> Some (CRef user_id) -> r1 !! target = r !! target) /\
      (r1 !! target = r !! target \/ r1 !! target = Some (CStr v))).
    { exists r. repeat split; try done. by left. }
    destruct ev as [| |m flt col x| |]; cbn [apply_event];
      try (destruct Hkeep as (r1 & [= <-] & ? & ? & ?); exists r;
           repeat split; try done; intros _ (? & ? & ? & [=] & _)).
    rewrite apply_update_row. destruct (decide (n = model_name m)) as [->|Hn].
    2: { exists r. repeat split; try done; [by left|].
         intros _ (m' & flt' & x' & [= -> -> -> ->] & Hm). by destruct Hn. }
    rewrite Hr. cbn [fmap option_fmap option_map].
    assert (Hcol : col <> source) by (apply (Hsrc m flt col x); [left|done]).
    destruct (decide (col = target)) as [->|Hct].
    - destruct (Htgt m flt target x) as [-> ->]; [left|done|done|].
      cbn [row_matches]. destruct (decide (r !! source = Some (CRef user_id))) as [Hm|Hm].
      + rewrite bool_decide_true by done. eexists. split; [done|].
        rewrite lookup_insert_ne by done. rewrite lookup_insert_eq.
        repeat split; try done. by right.
      + rewrite bool_decide_false by done. exists r. repeat split; try done. by left.
    - destruct (row_matches flt pk r).
      + eexists. split; [done|]. rewrite !lookup_insert_ne by done.
        repeat split; try done; [by left|].
        intros _ (m' & flt' & x' & [= -> -> -> ->] & _). by destruct Hct.
      + exists r. repeat split; try done; [by left|].
        intros _ (m' & flt' & x' & [= -> -> -> ->] & _). by destruct Hct. }
  destruct Hstep as (r1 & Hr1 & Hs1 & Hn1 & Ht1 & Hw1).
  destruct (IH (apply_event ev db) r1) as (r' & Hr' & Hs' & Hn' & Ht' & Hw'); [| |done|].
  { intros m flt col x Hin. apply (Hsrc m flt col x). by right. }
  { intros m flt col x Hin. apply (Htgt m flt col x). by right. }
  exists r'. split; [done|]. split; [congruence|]. split; [|split].
  - intros Hne. rewrite Hn' by congruence. by apply Hn1.
  - destruct Ht' as [Ht'|Ht']; [|by right]. rewrite Ht'. exact Ht1.
  - intros Hm (m & flt & x & Hin & Hmn).
    apply elem_of_cons in Hin as [<-|Hin].
    + assert (H1 : r1 !! target = Some (CStr v)) by (apply Hw1; eauto).
      destruct Ht' as [Ht'|Ht']; congruence.
    + apply Hw'; [congruence|eauto].
Qed.

(** The rows of a registered model after [rename_username]. *)
Lemma rename_copy_rows (user_id : Z) (username : string) (w : world)
    (model : model_class) (source target : string) (max_length : Z) :
  (model, source, target, max_length) ∈ instances w ->
  model_name model <> "User" ->
  (forall m s t l, (m, s, t, l) ∈ instances w ->
     model_name m = model_name model -> t <> source) ->
  (forall m s t l, (m, s, t, l) ∈ instances w ->
     model_name m = model_name model -> t = target ->
     s = source /\ py_slice_to username l = py_slice_to username max_length) ->
  forall pk r,
    table_of w model !! pk = Some r ->
    exists r',
      table_of (exec (rename_username user_id username) w) model !! pk = Some r' /\
      r' !! source = r !! source /\
      r' !! target =
        if decide (r !! source = Some (CRef user_id))
        then Some (CStr (py_slice_to username max_length))
        else r !! target.
Proof.
  intros Hin Huser Hsrc Htgt pk r Hr.
  unfold table_of, exec. rewrite rename_username_run. cbn [snd tables].
  destruct (apply_events_copy
              (map (update_of user_id username) (instances w) ++
               [Update User (ByPk user_id) "username" username])
              (tables w) (model_name model) source target
              (py_slice_to username max_length) user_id pk r)
    as (r' & Hr' & Hs' & Hn' & _ & Hw'); [| |exact Hr|].
  - intros m flt col x Hev Hm.
    apply elem_of_rename_stmts in Hev as [(s & l & Hev & _ & _)|(-> & _ & _ & _)].
    + by apply (Hsrc m s col l).
    + by destruct Huser.
  - intros m flt col x Hev Hm ->.
    apply elem_of_rename_stmts in Hev as [(s & l & Hev & -> & ->)|(-> & _ & _ & _)].
    + destruct (Htgt m s target l) as [-> ->]; done.
    + by destruct Huser.
  - exists r'. split; [exact Hr'|]. split; [exact Hs'|].
    destruct (decide (r !! source = Some (CRef user_id))) as [Hm|Hm]; [|by apply Hn'].
    apply Hw'; [done|]. eexists model, _, _. split; [|done].
    apply elem_of_app. left. apply list_elem_of_fmap.
    exists (model, source, target, max_length). by split.
Qed.

(** X8: for a registry entry of a model other than the user model, whose
    source column no entry assigns and whose target column is assigned only
    by entries that agree with it, [rename_username] leaves every row of
    the model with its source key, gives the rows that point at [user_id]
    the slice [username[:max_length]] as target, and leaves the target of
    every other row as it was. *)
Theorem rename_username_copies (user_id : Z) (username : string) (w : world)
    (model : model_class) (source target : string) (max_length : Z) :
  (model, source, target, max_length) ∈ instances w ->
  model_name model <> "User" ->
  (forall m s t l, (m, s, t, l) ∈ instances w ->
     model_name m = model_name model -> t <> source) ->
  (forall m s t l, (m, s, t, l) ∈ instances w ->
     model_name m = model_name model -> t = target ->
     s = source /\ py_slice_to username l = py_slice_to username max_length) ->
  forall pk r,
    table_of w model !! pk = Some r ->
    exists r',
      table_of (exec (rename_username user_id username) w) model !! pk = Some r' /\
      r' !! source = r !! source /\
      r' !! target =
        if decide (r !! source = Some (CRef user_id))
        then Some (CStr (py_slice_to username max_length))
        else r !! target.
Proof. apply rename_copy_rows. Qed.

Lemma rename_username_copies_witness :
  exists r',
    table_of (exec (rename_username 8 "robert") Blog.world0) Blog.Comment !! 1 = Some r' /\
    r' !! "author" = Some (CRef 8) /\
    r' !! "author_name" = Some (CStr "rob").
Proof.
  destruct (rename_username_copies 8 "robert" Blog.world0 Blog.Comment
              "author" "author_name" 3) with (pk := 1) (r := Blog.comment_by_bob)
    as (r' & Hr' & Hsource & Htarget).
  - right. left.
  - discriminate.
  - intros m s t l Hin Hm Ht. apply list_elem_of_In in Hin. cbn in Hin.
    destruct Hin as [Hin|[Hin|[]]]; injection Hin as <- <- <- <-; discriminate.
  - intros m s t l Hin Hm Ht. apply list_elem_of_In in Hin. cbn in Hin.
    destruct Hin as [Hin|[Hin|[]]]; injection Hin as <- <- <- <-;
      [discriminate | done].
  - reflexivity.
  - exists r'. split; [exact Hr'|]. split; [exact Hsource | exact Htarget].
Defined.

Lemma update_rows_no_match (flt : lookup) (col v : string) (t : table) :
  (forall pk r, t !! pk = Some r -> row_matches flt pk r = false) ->
  update_rows flt col v t = t.
Proof.
  intros Hno. apply map_eq. intros pk. rewrite update_rows_lookup.
  destruct (t !! pk) as [r|] eqn:Hr; [|done]. cbn. by rewrite (Hno pk r Hr).
Qed.

Lemma apply_update_no_match (m : model_class) (flt : lookup) (col v : string)
    (db : gmap string table) :
  (forall pk r, default ∅ (db !! model_name m) !! pk = Some r ->
     row_matches flt pk r = false) ->
  apply_update m flt col v db = db.
Proof.
  intros Hno. unfold apply_update. apply map_eq. intros n.
  destruct (decide (n = model_name m)) as [->|Hne].
  - rewrite lookup_alter_eq. destruct (db !! model_name m) as [t|] eqn:Ht; [|done].
    cbn. f_equal. apply update_rows_no_match. intros pk r Hr.
    apply Hno. exact Hr.
  - by rewrite lookup_alter_ne.
Qed.

(** X9: renaming a user that has no row in the user table still rewrites
    the copies that point at [user_id]; the final statement on the user
    table is sent but matches nothing, so the database ends as the copies'
    updates left it, and nothing is raised. *)
Theorem rename_username_missing_user (user_id : Z) (username : string) (w : world) :
  table_of w User !! user_id = None ->
  let w' := exec (rename_username user_id username) w in
  fst (rename_username user_id username w) = Ok tt /\
  tables w' = fold_left (fun db ev => apply_event ev db)
                (map (update_of user_id username) (instances w)) (tables w) /\
  table_of w' User !! user_id = None /\
  last (trace w') = Some (Update User (ByPk user_id) "username" username).
Proof.
  intros Hnone w'. unfold w', exec, table_of. rewrite rename_username_run.
  cbn [fst snd tables trace]. rewrite fold_left_app. cbn [fold_left apply_event].
  set (db := fold_left _ (map _ _) (tables w)).
  assert (Hdb : default ∅ (db !! model_name User) !! user_id = None).
  { destruct (default ∅ (db !! model_name User) !! user_id) as [r|] eqn:Hr; [|done].
    assert (Hsome : is_Some (default ∅ (tables w !! model_name User) !! user_id)).
    { apply (apply_events_rows (map (update_of user_id username) (instances w))).
      fold db. by rewrite Hr. }
    unfold table_of in Hnone. rewrite Hnone in Hsome. by destruct Hsome. }
  assert (Hid : apply_update User (ByPk user_id) "username" username db = db).
  { apply apply_update_no_match. intros pk r Hr. cbn [row_matches].
    apply bool_decide_eq_false. intros ->. by rewrite Hdb in Hr. }
  rewrite Hid. repeat split; try done.
  by rewrite app_assoc, last_snoc.
Qed.

Lemma rename_username_missing_user_witness :
  fst (rename_username 42 "ghost" Blog.world0) = Ok tt /\
  tables (exec (rename_username 42 "ghost") Blog.world0) = tables Blog.world0.
Proof.
  destruct (rename_username_missing_user 42 "ghost" Blog.world0 eq_refl)
    as (Hok & Htables & _).
  split; [exact Hok|]. rewrite Htables. vm_compute. reflexivity.
Defined.

Lemma update_rows_idemp (flt : lookup) (col v : string) (t : table) :
  update_rows flt col v (update_rows flt col v t) = update_rows flt col v t.
Proof.
  apply map_eq. intros pk. rewrite !update_rows_lookup.
  destruct (t !! pk) as [r|]; [|done]. cbn. f_equal.
  destruct (row_matches flt pk r) eqn:Hm; [|by rewrite Hm].
  destruct (row_matches flt pk (<[col := CStr v]> r)); [|done].
  apply insert_insert_eq.
Qed.

Lemma apply_event_idemp (ev : event) (db : gmap string table) :
  apply_event ev (apply_event ev db) = apply_event ev db.
Proof.
  destruct ev as [| |m flt col v| |]; cbn [apply_event]; try done.
  unfold apply_update. apply map_eq. intros n.
  destruct (decide (n = model_name m)) as [->|Hne].
  - rewrite !lookup_alter_eq. destruct (db !! model_name m); [|done].
    cbn. f_equal. apply update_rows_idemp.
  - by rewrite !lookup_alter_ne.
Qed.

(** X10: [contribute_to_class] has no guard against a second attachment: a
    field attached twice to the same concrete class is registered twice.
    [rename_username] then sends that entry's update twice, and the
    database ends exactly as with a single registration. *)
Theorem duplicate_registration (self : UsernameField) (cls : model_class)
    (n : string) (user_id : Z) (username : string) (w : world) :
  abstract cls = false ->
  let e := (cls, populate_from self, n, max_length self) in
  let once := exec (contribute_to_class self cls n) w in
  let twice := exec (contribute_to_class self cls n) once in
  instances twice = instances w ++ [e; e] /\
  trace (exec (rename_username user_id username) twice) =
    trace w ++ map (update_of user_id username) (instances w) ++
    [update_of user_id username e; update_of user_id username e;
     Update User (ByPk user_id) "username" username] /\
  tables (exec (rename_username user_id username) twice) =
    tables (exec (rename_username user_id username) once).
Proof.
  intros Hconcrete e once twice.
  assert (Honce : once = {| heap := heap w; tables := tables w;
                            instances := instances w ++ [e];
                            trace := trace w; stdout := stdout w |}).
  { unfold once, exec. rewrite contribute_to_class_run. by rewrite Hconcrete. }
  assert (Htwice : twice = {| heap := heap w; tables := tables w;
                              instances := (instances w ++ [e]) ++ [e];
                              trace := trace w; stdout := stdout w |}).
  { unfold twice, exec. rewrite contribute_to_class_run, Honce. by rewrite Hconcrete. }
  rewrite Htwice, Honce. unfold exec. rewrite !rename_username_run.
  cbn [snd heap tables instances trace stdout].
  split; [by rewrite <- app_assoc|]. split.
  - rewrite !map_app. cbn [map]. by rewrite <- !app_assoc.
  - rewrite !map_app, !fold_left_app. cbn [map fold_left].
    by rewrite apply_event_idemp.
Qed.

Lemma duplicate_registration_witness :
  tables (exec (rename_username 8 "robert")
            (exec (contribute_to_class Blog.field Blog.Post "uname")
               (exec (contribute_to_class Blog.field Blog.Post "uname") Blog.world0))) =
  tables (exec (rename_username 8 "robert")
            (exec (contribute_to_class Blog.field Blog.Post "uname") Blog.world0)).
Proof.
  apply (duplicate_registration Blog.field Blog.Post "uname" 8 "robert" Blog.world0).
  reflexivity.
Defined.

(** ** rename_username followed by pre_save and lint *)

Lemma rename_username_heap (user_id : Z) (username : string) (w : world) :
  heap (exec (rename_username user_id username) w) = heap w.
Proof. unfold exec. by rewrite rename_username_run. Qed.




(** X12: [rename_username] does not reach instances already in memory, and
    [pre_save] does not refresh a target that is set: an instance loaded
    before the rename and saved after it still returns, and keeps, the old
    name. *)
Theorem rename_leaves_loaded_copy (self : UsernameField) (obj : loc) (add : bool)
    (user_id : Z) (username old : string) (w : world) (d : row) :
  heap w !! obj = Some d ->
  d !! name self = Some (CStr old) ->
  old <> "" ->
  let w1 := exec (rename_username user_id username) w in
  heap w1 !! obj = Some d /\
  fst (pre_save self obj add w1) = Ok (VStr old) /\
  heap (exec (pre_save self obj add) w1) !! obj = Some d.
Proof.
  intros Hobj Hcur Hold w1.
  assert (Hobj1 : heap w1 !! obj = Some d).
  { unfold w1. by rewrite rename_username_heap. }
  assert (Hread : fst (getattr obj (name self) w1) = Ok (VStr old)).
  { by rewrite (getattr_str obj (name self) w1 d old Hobj1 Hcur). }
  split; [exact Hobj1|]. unfold exec.
  rewrite (pre_save_skips self obj add w1 (VStr old) Hread) by congruence.
  by split.
Qed.

Lemma rename_leaves_loaded_copy_witness :
  fst (pre_save Blog.field 1%nat false (exec (rename_username 8 "robert") Blog.world0))
  = Ok (VStr "bob").
Proof.
  apply (rename_leaves_loaded_copy Blog.field 1%nat false 8 "robert" "bob" Blog.world0
           Blog.post_by_bob); [reflexivity | reflexivity | discriminate].
Defined.

Lemma apply_events_other_table (evs : list event) (db : gmap string table) (n : string) :
  (forall m flt col v, Update m flt col v ∈ evs -> model_name m <> n) ->
  fold_left (fun db ev => apply_event ev db) evs db !! n = db !! n.
Proof.
  revert db. induction evs as [|ev evs IH]; intros db Hevs; cbn [fold_left]; [done|].
  rewrite IH by (intros m flt col v Hin; apply (Hevs m flt col v); by right).
  destruct ev as [| |m flt col v| |]; cbn [apply_event]; try done.
  unfold apply_update. apply lookup_alter_ne. apply (Hevs m flt col v). left.
Qed.

(** The user table after [rename_username], when no registry entry is
    declared on the user model itself. *)
Lemma rename_user_table (user_id : Z) (username : string) (w : world) (id : Z) :
  (forall m s t l, (m, s, t, l) ∈ instances w -> model_name m <> "User") ->
  table_of (exec (rename_username user_id username) w) User !! id =
  (fun u => if decide (id = user_id) then <["username" := CStr username]> u else u)
    <$> table_of w User !! id.
Proof.
  intros Hreg. unfold table_of, exec. rewrite rename_username_run. cbn [snd tables].
  rewrite fold_left_app. cbn [fold_left apply_event].
  rewrite (apply_update_row User (ByPk user_id) "username" username).
  rewrite decide_True by done.
  rewrite apply_events_other_table.
  - destruct (default ∅ (tables w !! model_name User) !! id) as [u|]; [|done].
    cbn [fmap option_fmap option_map row_matches]. f_equal.
    destruct (decide (id = user_id)) as [->|Hne];
      [by rewrite bool_decide_true | by rewrite bool_decide_false].
  - intros m flt col v Hin.
    apply list_elem_of_fmap in Hin as ([[[m' s'] t'] l'] & Heq & Hin).
    cbn in Heq. injection Heq as -> -> -> ->. by apply (Hreg m' s' t' l').
Qed.

Lemma joined_username_lookup (users : table) (source : string) (r u : row) (id : Z) :
  r !! source = Some (CRef id) -> users !! id = Some u ->
  joined_username users source r = default CNull (u !! "username").
Proof. intros Hs Hu. unfold joined_username. by rewrite Hs, Hu. Qed.

(** X13: [rename_username] keeps a consistent entry consistent. Take a new
    name that the user table accepts (at most 30 characters, held by no
    other user) and an entry of a sane registry (no entry on the user model,
    the entry's source column assigned by none, its target column only by
    entries that agree with it) whose [max_length] does not cut the name.
    If the query of [lint] selected no row of the model before the rename,
    it selects none once every statement of the rename is applied, so
    [lint] prints nothing for the entry. *)
Theorem rename_username_keeps_clean (user_id : Z) (username : string) (w : world)
    (model : model_class) (source target : string) (max_length : Z) :
  (model, source, target, max_length) ∈ instances w ->
  (forall m s t l, (m, s, t, l) ∈ instances w -> model_name m <> "User") ->
  (forall m s t l, (m, s, t, l) ∈ instances w ->
     model_name m = model_name model -> t <> source) ->
  (forall m s t l, (m, s, t, l) ∈ instances w ->
     model_name m = model_name model -> t = target ->
     s = source /\ py_slice_to username l = py_slice_to username max_length) ->
  Z.of_nat (String.length username) <= max_length ->
  Z.of_nat (String.length username) <= 30 ->
  (forall id u, table_of w User !! id = Some u ->
     u !! "username" = Some (CStr username) -> id = user_id) ->
  let qs := {| qs_model := model; qs_source := source; qs_target := target |} in
  let w' := exec (rename_username user_id username) w in
  qs_pks w qs = [] ->
  qs_pks w' qs = [] /\
  (30 <= max_length ->
   stdout (exec (lint_entry (model, source, target, max_length)) w') = stdout w').
Proof.
  intros Hin Huser Hsrc Htgt Hlen _ _ qs w' Hclean.
  assert (Hclean' : qs_pks w' qs = []).
  { destruct (qs_pks w' qs) as [|pk rest] eqn:Hpks; [done|]. exfalso.
    assert (Hpk : pk ∈ qs_pks w' qs) by (rewrite Hpks; left).
    apply elem_of_qs_pks in Hpk as (r' & Hr' & Hbad).
    unfold qs in Hr', Hbad, Hclean. cbn [qs_model qs_source qs_target] in Hr', Hbad.
    assert (Hsome : is_Some (table_of w model !! pk)).
    { unfold table_of.
      apply (apply_events_rows
               (map (update_of user_id username) (instances w) ++
                [Update User (ByPk user_id) "username" username])).
      unfold w', table_of, exec in Hr'. rewrite rename_username_run in Hr'.
      cbn [snd tables] in Hr'. by rewrite Hr'. }
    destruct Hsome as [r Hr].
    assert (Hgood : ~ reported (table_of w User) source target r).
    { intros Hrep.
      assert (Hpk : pk ∈ qs_pks w
                {| qs_model := model; qs_source := source; qs_target := target |}).
      { apply elem_of_qs_pks. exists r. by split. }
      rewrite Hclean in Hpk. by apply not_elem_of_nil in Hpk. }
    assert (Hj : joined_username (table_of w User) source r <> CNull).
    { intros Hnull. apply Hgood. by left. }
    destruct (joined_username_inv _ _ _ Hj) as (id & u & Hrs & Hu & Hua).
    destruct (rename_copy_rows user_id username w model source target max_length
                Hin (Huser _ _ _ _ Hin) Hsrc Htgt pk r Hr)
      as (r1 & Hr1 & Hs1 & Ht1).
    fold w' in Hr1. rewrite Hr' in Hr1. injection Hr1 as <-.
    pose proof (rename_user_table user_id username w id Huser) as Hu'.
    fold w' in Hu'. rewrite Hu in Hu'. cbn [fmap option_fmap option_map] in Hu'.
    rewrite Hrs in Hs1.
    unfold reported in Hbad.
    rewrite (joined_username_lookup _ _ _ _ _ Hs1 Hu') in Hbad.
    destruct (decide (id = user_id)) as [->|Hne].
    - rewrite Hrs, decide_True in Ht1 by done.
      rewrite py_slice_to_short in Ht1 by done.
      rewrite lookup_insert_eq in Hbad. cbv [from_option Datatypes.id] in Hbad.
      destruct Hbad as [|(c & Hc & _ & Hcne)]; [done|]. congruence.
    - rewrite Hrs, decide_False in Ht1 by congruence.
      rewrite Hua in Hbad. cbv [from_option Datatypes.id] in Hbad.
      apply Hgood. destruct Hbad as [|(c & Hc & Hcn & Hcne)]; [done|].
      right. exists c. split; [congruence|]. by split. }
  split; [exact Hclean'|]. intros Hwide. unfold exec.
  rewrite (lint_entry_wide model source target max_length w' Hwide).
  cbn [snd stdout]. fold qs. rewrite Hclean'.
  rewrite decide_True by done. apply app_nil_r.
Qed.

Lemma rename_username_keeps_clean_witness :
  qs_pks (exec (rename_username 8 "robert") Blog.world0)
    {| qs_model := Blog.Post; qs_source := "user"; qs_target := "uname" |} = [].
Proof.
  apply (rename_username_keeps_clean 8 "robert" Blog.world0 Blog.Post "user" "uname" 30).
  - left.
  - intros m s t l Hin. apply list_elem_of_In in Hin. cbn in Hin.
    destruct Hin as [Hin|[Hin|[]]]; injection Hin as <- <- <- <-; discriminate.
  - intros m s t l Hin Hm Ht. apply list_elem_of_In in Hin. cbn in Hin.
    destruct Hin as [Hin|[Hin|[]]]; injection Hin as <- <- <- <-; discriminate.
  - intros m s t l Hin Hm Ht. apply list_elem_of_In in Hin. cbn in Hin.
    destruct Hin as [Hin|[Hin|[]]]; injection Hin as <- <- <- <-;
      [done | discriminate].
  - cbn. lia.
  - cbn. lia.
  - intros id u Hu.
    assert (Hall : map_Forall
              (fun (id : Z) (u : row) =>
                 u !! "username" = Some (CStr "robert") -> id = 8)
              (table_of Blog.world0 User)).
    { apply (bool_decide_unpack _). vm_compute. exact I. }
    exact (Hall id u Hu).
  - reflexivity.
Defined.

(** ** More on lint *)

(** What the loop of [lint] adds to the trace and to the output depends on
    the database and on the entries only. *)
Lemma lint_loop_out (l : list entry) (w : world) :
  exists (evs : list event) (out : list message),
    (forall w0, tables w0 = tables w ->
       exec (for_each l lint_entry) w0 =
       {| heap := heap w0; tables := tables w0; instances := instances w0;
          trace := trace w0 ++ evs; stdout := stdout w0 ++ out |}) /\
    (length evs <= 2 * length l)%nat /\ (length out <= length l)%nat /\
    (forall ev, ev ∈ evs -> exists qs, ev = Exists qs \/ ev = Select qs).
Proof.
  induction l as [|e l IH].
  { exists [], []. split; [|split; [cbn; lia|split; [cbn; lia|]]].
    - intros w0 _. unfold exec. cbn. apply world_eq; cbn; try done; by rewrite app_nil_r.
    - intros ev Hin. by apply not_elem_of_nil in Hin. }
  destruct IH as (evs & out & Hrun & Hevs & Hout & Hkind).
  assert (Hhead : exists evs1 out1,
    (forall w0, tables w0 = tables w ->
       exec (lint_entry e) w0 =
       {| heap := heap w0; tables := tables w0; instances := instances w0;
          trace := trace w0 ++ evs1; stdout := stdout w0 ++ out1 |}) /\
    (length evs1 <= 2)%nat /\ (length out1 <= 1)%nat /\
    (forall ev, ev ∈ evs1 -> exists qs, ev = Exists qs \/ ev = Select qs)).
  { destruct e as [[[model source] target] ml].
    destruct (Z.lt_ge_cases ml 30) as [Hml|Hml].
    - exists [], [Info model target]. split; [|split; [cbn; lia|split; [cbn; lia|]]].
      + intros w0 _. unfold exec. rewrite (lint_entry_narrow model source target ml w0 Hml).
        cbn [snd]. apply world_eq; cbn; try done. by rewrite app_nil_r.
      + intros ev Hin. by apply not_elem_of_nil in Hin.
    - set (qs := {| qs_model := model; qs_source := source; qs_target := target |}).
      exists (Exists qs :: (if decide (qs_pks w qs = []) then [] else [Select qs])),
             (if decide (qs_pks w qs = []) then []
              else [Warning (length (qs_pks w qs)) model target (qs_pks w qs)]).
      split; [|split; [|split]].
      + intros w0 Htab. unfold exec.
        rewrite (lint_entry_wide model source target ml w0 Hml). cbn [snd]. fold qs.
        by rewrite (qs_pks_tables w w0 qs Htab).
      + destruct (decide (qs_pks w qs = [])); cbn; lia.
      + destruct (decide (qs_pks w qs = [])); cbn; lia.
      + intros ev Hin. exists qs. destruct (decide (qs_pks w qs = [])).
        * apply list_elem_of_singleton in Hin. by left.
        * apply elem_of_cons in Hin as [->|Hin]; [by left|].
          apply list_elem_of_singleton in Hin. by right. }
  destruct Hhead as (evs1 & out1 & Hrun1 & Hevs1 & Hout1 & Hkind1).
  exists (evs1 ++ evs), (out1 ++ out). split; [|split; [|split]].
  - intros w0 Htab.
    change (e :: l) with ([] ++ e :: l).
    rewrite (for_each_split lint_entry lint_entry_total [] e l w0).
    change (exec (for_each [] lint_entry) w0) with w0.
    rewrite (Hrun1 w0 Htab). rewrite Hrun by exact Htab.
    apply world_eq; cbn; try done; by rewrite app_assoc.
  - rewrite length_app. cbn [length]. lia.
  - rewrite length_app. cbn [length]. lia.
  - intros ev Hin. apply elem_of_app in Hin as [Hin|Hin]; eauto.
Qed.

(** X15: [lint] only reads. It never raises; it prints at most one line and
    sends at most two statements per registry entry, none of them an
    update; and run again on the world it left, it sends the same
    statements and prints the same lines once more. *)
Theorem lint_repeatable (w : world) :
  exists (evs : list event) (out : list message),
    lint w =
      (Ok tt,
       {| heap := heap w; tables := tables w; instances := instances w;
          trace := trace w ++ evs; stdout := stdout w ++ out |}) /\
    trace (exec lint (exec lint w)) = trace w ++ evs ++ evs /\
    stdout (exec lint (exec lint w)) = stdout w ++ out ++ out /\
    (length evs <= 2 * length (instances w))%nat /\
    (length out <= length (instances w))%nat /\
    (forall ev, ev ∈ evs -> exists qs, ev = Exists qs \/ ev = Select qs).
Proof.
  destruct (lint_loop_out (instances w) w) as (evs & out & Hrun & Hevs & Hout & Hkind).
  exists evs, out.
  assert (H1 : lint w =
      (Ok tt,
       {| heap := heap w; tables := tables w; instances := instances w;
          trace := trace w ++ evs; stdout := stdout w ++ out |})).
  { rewrite lint_run. by rewrite Hrun. }
  split; [exact H1|].
  unfold exec at 2 4. rewrite H1. cbn [snd].
  unfold exec. rewrite lint_run. cbn [snd instances]. rewrite Hrun by done.
  cbn [trace stdout]. by rewrite <- !app_assoc.
Qed.

Lemma lint_repeatable_witness :
  exists (evs : list event) (out : list message),
    trace (exec lint (exec lint Sample.world0)) = trace Sample.world0 ++ evs ++ evs /\
    stdout (exec lint (exec lint Sample.world0)) = stdout Sample.world0 ++ out ++ out.
Proof.
  destruct (lint_repeatable Sample.world0) as (evs & out & _ & Htrace & Hout & _).
  exists evs, out. split; [exact Htrace | exact Hout].
Defined.

(** X16: the threshold of [lint] is [max_length < 30], and the default
    [max_length] is 30: a field declared without [max_length] and attached
    to a concrete class is checked by [lint] (its query is the last thing
    [lint] sends, and no notice is printed for it), while the same field
    declared with [max_length=29] is skipped with the notice. *)
Theorem default_field_is_checked (kw_populate_from kw_name : option string)
    (cls : model_class) (n : string) (w : world) :
  abstract cls = false ->
  let qs := {| qs_model := cls; qs_source := default "user" kw_populate_from;
               qs_target := n |} in
  let attach := fun kw_max_length =>
    exec (contribute_to_class
            (UsernameField_init kw_populate_from kw_max_length kw_name) cls n) w in
  let before := fun w1 => exec (for_each (instances w) lint_entry) w1 in
  (trace (exec lint (attach None)) =
     trace (before (attach None)) ++
     Exists qs :: (if decide (qs_pks w qs = []) then [] else [Select qs])) /\
  (stdout (exec lint (attach None)) =
     stdout (before (attach None)) ++
     (if decide (qs_pks w qs = []) then []
      else [Warning (length (qs_pks w qs)) cls n (qs_pks w qs)])) /\
  trace (exec lint (attach (Some 29))) = trace (before (attach (Some 29))) /\
  stdout (exec lint (attach (Some 29))) =
    stdout (before (attach (Some 29))) ++ [Info cls n].
Proof.
  intros Hconcrete qs attach before.
  assert (Hreg : forall ml,
    instances (attach ml) =
    instances w ++ [(cls, default "user" kw_populate_from, n, default 30 ml)]).
  { intros ml. unfold attach, exec. rewrite contribute_to_class_run.
    cbn [snd instances]. by rewrite Hconcrete. }
  assert (Htab : forall ml, tables (attach ml) = tables w).
  { intros ml. unfold attach, exec. by rewrite contribute_to_class_run. }
  assert (Hsplit : forall kw ml, default 30 kw = ml ->
    exec lint (attach kw) =
    exec (lint_entry (cls, default "user" kw_populate_from, n, ml))
      (before (attach kw))).
  { intros kw ml <-. by rewrite (lint_split (attach kw) (instances w) [] _ (Hreg kw)). }
  assert (Hpks : qs_pks (before (attach None)) qs = qs_pks w qs).
  { apply qs_pks_tables. unfold before.
    destruct (lint_loop_frame (instances w) (attach None)) as (_ & -> & _).
    apply Htab. }
  rewrite !(Hsplit None 30 eq_refl), !(Hsplit (Some 29) 29 eq_refl).
  unfold exec at 1 2 3 4.
  rewrite (lint_entry_wide cls (default "user" kw_populate_from) n 30
             (before (attach None))) by (cbn; lia).
  rewrite (lint_entry_narrow cls (default "user" kw_populate_from) n 29
             (before (attach (Some 29)))) by (cbn; lia).
  cbn [snd trace stdout]. fold qs. by rewrite Hpks.
Qed.

Lemma default_field_is_checked_witness :
  stdout (exec lint
            (exec (contribute_to_class (UsernameField_init None (Some 29) None)
                     Sample.Post "initial")
               {| heap := ∅; tables := ∅; instances := []; trace := []; stdout := [] |}))
  = [Info Sample.Post "initial"].
Proof.
  apply (default_field_is_checked None None Sample.Post "initial"
           {| heap := ∅; tables := ∅; instances := []; trace := []; stdout := [] |}).
  reflexivity.
Defined.
